(** * contactsAPI: identity and session management

    A shallow embedding of the authentication service
    ([src/services/auth.py]), the user repository
    ([src/repository/users.py]) and the authorization routes
    ([src/routes/auth.py]), with the properties of the specification
    stated and settled against it, followed by further properties of
    these and of the contacts repository and routes
    ([src/repository/contacts.py], [src/routes/contacts.py]) that the
    authenticated requests reach.

    The Python code runs against four collaborators that are not part of
    the repository: python-jose ([jwt.encode], [jwt.decode]), passlib
    ([CryptContext.verify]), a Redis client and an SQLAlchemy session.
    Each is given a small executable model of the behaviour the code
    relies on; cryptographic values are symbolic terms. *)

From stdpp Require Import gmap strings list pretty.
From Stdlib Require Import ZArith QArith Lia.

Open Scope string_scope.
Open Scope Z_scope.

(** ** Python values that travel in token payloads *)

Inductive jval :=
| JStr (s : string)
| JInt (n : Z)
| JNull.

#[global] Instance jval_eq_dec : EqDecision jval.
Proof. solve_decision. Defined.

(** [str(v)] as used by an f-string. *)
Definition py_str (v : jval) : string :=
  match v with
  | JStr s => s
  | JInt n => pretty n
  | JNull => "None"
  end.

(** ** python-jose: signed compact tokens *)

Module Jose.

(** The HMAC tag of a payload under a key, as a symbolic term: two tags
    are equal exactly when key, algorithm and message are. *)
Inductive signature :=
| Hmac (key alg : string) (msg : gmap string jval).

#[global] Instance signature_eq_dec : EqDecision signature.
Proof. solve_decision. Defined.

(** A bearer string: either the three-part structure (header algorithm,
    claims, signature) or any other text. *)
Inductive token :=
| Compact (alg : string) (payload : gmap string jval) (sig : signature)
| Opaque (text : string).

#[global] Instance token_eq_dec : EqDecision token.
Proof. solve_decision. Defined.

(** The subclasses of [JWTError] that [jwt.decode] raises. *)
Inductive error :=
| DecodeError            (* not enough segments, alg not allowed *)
| SignatureFailed        (* "Signature verification failed." *)
| ExpiredSignatureError  (* "Signature has expired." *)
| JWTClaimsError.        (* a registered claim of the wrong type *)

#[global] Instance error_eq_dec : EqDecision error.
Proof. solve_decision. Defined.

(** Algorithms that sign with a shared secret string. *)
Definition hmac_algorithms : list string := ["HS256"; "HS384"; "HS512"].

Definition supported (alg : string) : bool :=
  bool_decide (alg ∈ hmac_algorithms).

(** [jwt.encode(claims, key, algorithm)]; [None] stands for the
    [JWSError] of an algorithm the library cannot sign with. *)
Definition encode (claims : gmap string jval) (key alg : string)
  : option token :=
  if supported alg then Some (Compact alg claims (Hmac key alg claims))
  else None.

Definition is_int (v : option jval) : bool :=
  match v with
  | Some (JInt _) | None => true
  | Some _ => false
  end.

Definition is_str (v : option jval) : bool :=
  match v with
  | Some (JStr _) | None => true
  | Some _ => false
  end.

(** [_validate_exp]: the token is stale once [exp < now]. *)
Definition expired (now : Z) (v : option jval) : bool :=
  match v with
  | Some (JInt e) => e <? now
  | _ => false
  end.

(** [jwt.decode(token, key, algorithms=[...])] at clock value [now]. *)
Definition decode (t : token) (key : string) (algorithms : list string)
    (now : Z) : error + gmap string jval :=
  match t with
  | Opaque _ => inl DecodeError
  | Compact alg payload sig =>
      if negb (bool_decide (alg ∈ algorithms)) then inl DecodeError
      else if negb (bool_decide (sig = Hmac key alg payload))
      then inl SignatureFailed
      else if negb (is_int (payload !! "iat")) then inl JWTClaimsError
      else if negb (is_int (payload !! "exp")) then inl JWTClaimsError
      else if expired now (payload !! "exp") then inl ExpiredSignatureError
      else if negb (is_str (payload !! "sub")) then inl JWTClaimsError
      else inr payload
  end.
#[global] Arguments decode : simpl never.

End Jose.

(** ** passlib: the bcrypt hashing context *)

Module Passlib.

(** A stored digest: the bcrypt hash of a secret under a salt, or a
    string that the context cannot identify as a hash at all. *)
Inductive digest :=
| Bcrypt (salt secret : string)
| Unidentified (text : string).

#[global] Instance digest_eq_dec : EqDecision digest.
Proof. solve_decision. Defined.

Definition hash (salt secret : string) : digest := Bcrypt salt secret.

(** [CryptContext.verify(secret, hash)]; [None] stands for
    [UnknownHashError] ("hash could not be identified"). *)
Definition verify (secret : string) (h : digest) : option bool :=
  match h with
  | Bcrypt _ s => Some (bool_decide (secret = s))
  | Unidentified _ => None
  end.

End Passlib.

(** ** The users table *)

Module User.

(** Modelled from the spec: the [User] table of
    [src/database/models.py], which is not among the sources; the
    columns are those the routes and the repository read and write. *)
Record t := mk {
  id : Z;
  username : string;
  email : string;
  password : Passlib.digest;
  avatar : option string;
  refresh_token : option Jose.token;
  confirmed : bool;
}.

#[global] Instance eq_dec : EqDecision t.
Proof. solve_decision. Defined.

Definition set_refresh_token (v : option Jose.token) (u : t) : t :=
  mk (id u) (username u) (email u) (password u) (avatar u) v (confirmed u).

Definition set_confirmed (v : bool) (u : t) : t :=
  mk (id u) (username u) (email u) (password u) (avatar u)
    (refresh_token u) v.

Definition set_avatar (v : option string) (u : t) : t :=
  mk (id u) (username u) (email u) (password u) v (refresh_token u)
    (confirmed u).

End User.

(** ** The Redis client held by the service *)

Module Redis.

Inductive op := GET | SET | EXPIRE.

(** [pickle.dumps(user)] *)
Inductive bytes := Pickled (u : User.t).

Definition pickle_dumps (u : User.t) : bytes := Pickled u.
Definition pickle_loads (b : bytes) : User.t :=
  match b with Pickled u => u end.

(** The keys with their value and optional absolute expiry time; which
    commands fail with a connection error; and whether the value a command
    returns can be awaited. The class attribute [r] is built by the
    blocking [redis.Redis], whose [set] and [expire] return plain booleans:
    awaiting one raises [TypeError]. With a client whose commands return
    coroutines the [await] resumes with the value. [awaitable] says which,
    and the statements about [get_current_user] hold for either. *)
Record t := mk {
  data : gmap string (bytes * option Z);
  faulty : op → bool;
  awaitable : bool;
}.

Definition live (now : Z) (e : bytes * option Z) : bool :=
  match e.2 with
  | Some deadline => now <? deadline
  | None => true
  end.

Definition get (r : t) (now : Z) (k : string) : option bytes :=
  match data r !! k with
  | Some e => if live now e then Some e.1 else None
  | None => None
  end.

Definition set (r : t) (k : string) (v : bytes) : t :=
  mk (<[k := (v, None)]> (data r)) (faulty r) (awaitable r).

Definition expire (r : t) (now : Z) (k : string) (seconds : Z) : t :=
  mk (alter (λ e, (e.1, Some (now + seconds))) k (data r))
     (faulty r) (awaitable r).

End Redis.

(** ** Configuration ([src/conf/config.py]) *)

Record Settings := {
  secret_key : string;
  algorithm : string;
}.

Definition default_settings : Settings :=
  {| secret_key := "secret"; algorithm := "HS256" |}.

(** ** Python floats and the range of [datetime] *)

Module Pyfloat.

(** A float argument: a finite value, taken exactly, or one of the two
    values that are no finite number. *)
Inductive t :=
| Finite (q : Q)
| Infinite
| NaN.

(** [bool(f)]: every float but zero is true. *)
Definition truthy (f : t) : bool :=
  match f with
  | Finite q => negb (Qnum q =? 0)
  | Infinite | NaN => true
  end.

(** [n / d] for a positive [d], rounded to the nearest integer, ties to
    the even one. *)
Definition round_half_even (n d : Z) : Z :=
  let below := n / d in
  match 2 * (n mod d) ?= d with
  | Lt => below
  | Gt => below + 1
  | Eq => if Z.even below then below else below + 1
  end.

(** The binary exponent of [n / d] for positive [n] and [d]: the [e] with
    [2^e <= n / d < 2^(e+1)]. *)
Definition exponent (n d : Z) : Z :=
  let k := Z.log2 n - Z.log2 d in
  let reaches :=
    if 0 <=? k then d * 2 ^ k <=? n else d <=? n * 2 ^ (- k) in
  if reaches then k else k - 1.

(** The double nearest to [n / d], for a positive [d], as a numerator
    and a denominator: 53 bits of significand, ties to even, the exponent
    not below that of the subnormal numbers. What is rounded here stays
    far below the largest double. *)
Definition to_double (n d : Z) : Z * Z :=
  if n =? 0 then (0, 1)
  else
    let e := Z.max (exponent (Z.abs n) d) (-1022) in
    let shift := 52 - e in
    if 0 <=? shift then
      (Z.sgn n * round_half_even (Z.abs n * 2 ^ shift) d, 2 ^ shift)
    else
      (Z.sgn n * round_half_even (Z.abs n) (d * 2 ^ (- shift))
       * 2 ^ (- shift), 1).

(** The microseconds of [timedelta(seconds=q)]. The whole seconds of
    the float are multiplied exactly; its fractional part is multiplied
    by 10^6 in double arithmetic; the sum is rounded to a whole
    microsecond, ties to even. *)
Definition microseconds (q : Q) : Z :=
  let d := Zpos (Qden q) in
  let intpart := Z.quot (Qnum q) d in
  let fracpart := Z.rem (Qnum q) d in
  let whole := intpart * 1000000 in
  if fracpart =? 0 then whole
  else
    let (pn, pd) := to_double (1000000 * fracpart) d in
    round_half_even (whole * pd + pn) pd.

(** A [timedelta] holds at most 999999999 days either way. *)
Definition timedelta_fits (us : Z) : bool :=
  (-999999999 <=? us / 86400000000) && (us / 86400000000 <=? 999999999).

(** [datetime.min] and [datetime.max], years 1 and 9999, in microseconds
    since the epoch. *)
Definition datetime_min : Z := -62135596800000000.
Definition datetime_max : Z := 253402300799999999.

Definition representable (moment : Z) : bool :=
  (datetime_min <=? moment) && (moment <=? datetime_max).

End Pyfloat.

(** ** Exceptions *)

Inductive exn :=
| HTTPException (status_code : Z) (detail : string)
                (headers : list (string * string))
| JWTError (e : Jose.error)
| JWSError
| KeyError (key : string)
| AttributeError (message : string)
| TypeError (message : string)
| UnknownHashError
| ConnectionError
| OverflowError
| ValueError
| IntegrityError.

#[global] Instance exn_eq_dec : EqDecision exn.
Proof. solve_decision. Defined.

Definition HTTP_400_BAD_REQUEST : Z := 400.
Definition HTTP_401_UNAUTHORIZED : Z := 401.
Definition HTTP_404_NOT_FOUND : Z := 404.
Definition HTTP_409_CONFLICT : Z := 409.
Definition HTTP_422_UNPROCESSABLE_ENTITY : Z := 422.

(** ** The world a request runs in, and the effects it leaves *)

Inductive event :=
| DbQuery (email : jval)       (* SELECT ... WHERE email = ... *)
| DbCommit
| CacheGet (key : string)
| CacheSet (key : string)
| CacheExpire (key : string)
| PasswordVerify
| MailTask (email : string).   (* background task added *)

#[global] Instance event_eq_dec : EqDecision event.
Proof. solve_decision. Defined.

(** The clock is read as [utcnow], the whole seconds since the epoch
    (what [timegm] makes of [datetime.utcnow()]), and [microsecond], the
    part of the current second that has passed, from 0 to 999999. *)
Record World := mkWorld {
  settings : Settings;
  db : list User.t;
  r : Redis.t;
  utcnow : Z;
  microsecond : Z;
  trace : list event;
}.

Definition emit (e : event) (w : World) : World :=
  mkWorld (settings w) (db w) (r w) (utcnow w) (microsecond w)
    (trace w ++ [e]).

Definition with_db (rows : list User.t) (w : World) : World :=
  mkWorld (settings w) rows (r w) (utcnow w) (microsecond w) (trace w).

Definition with_r (c : Redis.t) (w : World) : World :=
  mkWorld (settings w) (db w) c (utcnow w) (microsecond w) (trace w).

Definition at_time (now : Z) (w : World) : World :=
  mkWorld (settings w) (db w) (r w) now (microsecond w) (trace w).

(** [datetime.utcnow()], in microseconds since the epoch. *)
Definition instant (w : World) : Z := utcnow w * 1000000 + microsecond w.

(** ** Computations: state passing with exceptions *)

Inductive result (A : Type) :=
| Return (a : A)
| Raise (e : exn).
Arguments Return {A} a.
Arguments Raise {A} e.

Definition M (A : Type) : Type := World → result A * World.

Definition ret {A} (a : A) : M A := λ w, (Return a, w).
Definition raise {A} (e : exn) : M A := λ w, (Raise e, w).

Definition bind {A B} (m : M A) (k : A → M B) : M B :=
  λ w, match m w with
       | (Return a, w') => k a w'
       | (Raise e, w') => (Raise e, w')
       end.

Notation "'let*' x ':=' m 'in' k" := (bind m (λ x, k))
  (at level 10, x name, m at level 100, k at level 200).
Notation "m ';;' k" := (bind m (λ _, k))
  (at level 100, k at level 200, right associativity).

Definition ask {A} (f : World → A) : M A := λ w, (Return (f w), w).
Definition tell (e : event) : M unit := λ w, (Return tt, emit e w).

(** [try: body  except JWTError: handler] *)
Definition except_JWTError {A} (body : M A) (handler : Jose.error → M A)
  : M A :=
  λ w, match body w with
       | (Raise (JWTError e), w') => handler e w'
       | other => other
       end.

(** [d[key]] on a dict *)
Definition getitem (d : gmap string jval) (key : string) : M jval :=
  match d !! key with
  | Some v => ret v
  | None => raise (KeyError key)
  end.

(** [obj.name] where [obj] may be [None] *)
Definition getattr {A} (obj : option User.t) (name : string)
    (field : User.t → A) : M A :=
  match obj with
  | Some u => ret (field u)
  | None =>
      raise (AttributeError
               ("'NoneType' object has no attribute '" +:+ name +:+ "'"))
  end.

(** [jwt.decode] and [jwt.encode] against the clock of the world *)
Definition jwt_decode (t : Jose.token) (key : string)
    (algorithms : list string) : M (gmap string jval) :=
  let* now := ask utcnow in
  match Jose.decode t key algorithms now with
  | inr payload => ret payload
  | inl e => raise (JWTError e)
  end.

Definition jwt_encode (claims : gmap string jval) (key alg : string)
  : M Jose.token :=
  match Jose.encode claims key alg with
  | Some t => ret t
  | None => raise JWSError
  end.

(** The commands of the client: each fails with a connection error when
    the client is faulty for it. *)
Definition r_get (k : string) : M (option Redis.bytes) :=
  tell (CacheGet k);;
  let* c := ask r in
  let* now := ask utcnow in
  if Redis.faulty c Redis.GET then raise ConnectionError
  else ret (Redis.get c now k).

Definition r_set (k : string) (v : Redis.bytes) : M bool :=
  tell (CacheSet k);;
  let* c := ask r in
  if Redis.faulty c Redis.SET then raise ConnectionError
  else λ w, (Return true, with_r (Redis.set c k v) w).

Definition r_expire (k : string) (seconds : Z) : M bool :=
  tell (CacheExpire k);;
  let* c := ask r in
  let* now := ask utcnow in
  if Redis.faulty c Redis.EXPIRE then raise ConnectionError
  else λ w, (Return true, with_r (Redis.expire c now k seconds) w).

(** [await e] where [e] is a call on the client: the call runs first,
    then its value is awaited. *)
Definition await_client {A} (call : M A) : M A :=
  let* v := call in
  let* c := ask r in
  if Redis.awaitable c then ret v
  else raise (TypeError "object bool can't be used in 'await' expression").

(** ** [src/repository/users.py] *)

Module repository_users.

(** [query(User).filter(User.email == email).first()] on the table *)
Definition query_first (email : jval) (rows : list User.t)
  : option User.t :=
  head (filter (λ u, JStr (User.email u) = email) rows).

Definition get_user_by_email (email : jval) : M (option User.t) :=
  tell (DbQuery email);;
  let* rows := ask db in
  ret (query_first email rows).

(** The table after [row.refresh_token = token] on the row of [user]. *)
Definition store_token (user : User.t) (token : option Jose.token)
    (rows : list User.t) : list User.t :=
  map (λ row, if bool_decide (User.id row = User.id user)
              then User.set_refresh_token token row
              else row) rows.

(** [user.refresh_token = token; db.commit()]. [user] is the mapped
    object of the row with its primary key: assigning the attribute and
    committing rewrites that row. Assigning on [None] raises. *)
Definition update_token (user : option User.t)
    (token : option Jose.token) : M unit :=
  match user with
  | None =>
      raise (AttributeError
               "'NoneType' object has no attribute 'refresh_token'")
  | Some user =>
      (λ w, (Return tt, with_db (store_token user token (db w)) w));;
      tell DbCommit
  end.

(** [user = get_user_by_email(email); user.confirmed = True; commit] *)
Definition confirmed_email (email : jval) : M unit :=
  let* user := get_user_by_email email in
  match user with
  | None =>
      raise (AttributeError
               "'NoneType' object has no attribute 'confirmed'")
  | Some user =>
      (λ w, (Return tt,
             with_db (map (λ row,
                             if bool_decide (User.id row = User.id user)
                             then User.set_confirmed true row
                             else row) (db w)) w));;
      tell DbCommit
  end.

(** [new_user = User(...)] from the fields of [body] and [avatar], then
    [add], [commit], [refresh]. The body arrives with its password
    already hashed. [gravatar] is the image address Gravatar gave, [None]
    when that lookup raised (the exception is printed and dropped);
    [new_id] is the primary key the database assigns on insert. The row
    starts without a refresh token and unconfirmed, the defaults of the
    two columns. *)
Definition create_user (gravatar : option string) (new_id : Z)
    (username email : string) (password : Passlib.digest) : M User.t :=
  let avatar := gravatar in
  let new_user := User.mk new_id username email password avatar None false in
  (λ w, (Return tt, with_db (db w ++ [new_user]) w));;
  tell DbCommit;;
  ret new_user.

(** [user = get_user_by_email(email); user.avatar = url; commit] *)
Definition update_avatar (email : jval) (url : string) : M User.t :=
  let* user := get_user_by_email email in
  match user with
  | None =>
      raise (AttributeError "'NoneType' object has no attribute 'avatar'")
  | Some user =>
      (λ w, (Return tt,
             with_db (map (λ row,
                             if bool_decide (User.id row = User.id user)
                             then User.set_avatar (Some url) row
                             else row) (db w)) w));;
      tell DbCommit;;
      ret (User.set_avatar (Some url) user)
  end.

End repository_users.

(** ** [src/services/auth.py], class [Auth] *)

Module Auth.

Definition SECRET_KEY : M string := ask (λ w, secret_key (settings w)).
Definition ALGORITHM : M string := ask (λ w, algorithm (settings w)).

Definition minutes (n : Z) : Z := n * 60.
Definition days (n : Z) : Z := n * 86400.

(** Truth value of an [Optional[float]] in [if expires_delta:]. *)
Definition truthy (expires_delta : option Pyfloat.t) : bool :=
  match expires_delta with
  | Some d => Pyfloat.truthy d
  | None => false
  end.

(** [timedelta(seconds=f)], in microseconds: [OverflowError] beyond the
    days a [timedelta] holds and for an infinity, [ValueError] for a
    NaN. *)
Definition timedelta_seconds (f : Pyfloat.t) : M Z :=
  match f with
  | Pyfloat.Finite q =>
      if Pyfloat.timedelta_fits (Pyfloat.microseconds q)
      then ret (Pyfloat.microseconds q)
      else raise OverflowError
  | Pyfloat.Infinite => raise OverflowError
  | Pyfloat.NaN => raise ValueError
  end.

(** [moment + delta] on a [datetime]: [OverflowError] outside the years
    1 to 9999. *)
Definition datetime_add (moment delta : Z) : M Z :=
  if Pyfloat.representable (moment + delta) then ret (moment + delta)
  else raise OverflowError.

(** [timegm(d.utctimetuple())]: the whole seconds of a moment, as
    [jwt.encode] stores it. *)
Definition timegm (moment : Z) : Z := moment / 1000000.

(** [datetime.utcnow() + timedelta(seconds=expires_delta)], as the
    [exp] claim it becomes. *)
Definition expire_after (expires_delta : Pyfloat.t) : M Z :=
  let* now := ask instant in
  let* delta := timedelta_seconds expires_delta in
  let* expire := datetime_add now delta in
  ret (timegm expire).

Definition verify_password (plain_password : string)
    (hashed_password : Passlib.digest) : M bool :=
  tell PasswordVerify;;
  match Passlib.verify plain_password hashed_password with
  | Some b => ret b
  | None => raise UnknownHashError
  end.

(** [iat] and [exp] are [datetime] values that [jwt.encode] stores as
    whole seconds. The default lifetime is added to the clock without a
    range check: the clock of a running service lies far more than seven
    days before [datetime.max]. *)
Definition create_access_token (data : gmap string jval)
    (expires_delta : option Pyfloat.t) : M Jose.token :=
  let to_encode := data in
  let* now := ask utcnow in
  let* expire :=
    if truthy expires_delta
    then expire_after (default (Pyfloat.Finite 0) expires_delta)
    else ret (now + minutes 15) in
  let to_encode :=
    <["scope" := JStr "access_token"]>
      (<["exp" := JInt expire]> (<["iat" := JInt now]> to_encode)) in
  let* key := SECRET_KEY in
  let* alg := ALGORITHM in
  jwt_encode to_encode key alg.

Definition create_refresh_token (data : gmap string jval)
    (expires_delta : option Pyfloat.t) : M Jose.token :=
  let to_encode := data in
  let* now := ask utcnow in
  let* expire :=
    if truthy expires_delta
    then expire_after (default (Pyfloat.Finite 0) expires_delta)
    else ret (now + days 7) in
  let to_encode :=
    <["scope" := JStr "refresh_token"]>
      (<["exp" := JInt expire]> (<["iat" := JInt now]> to_encode)) in
  let* key := SECRET_KEY in
  let* alg := ALGORITHM in
  jwt_encode to_encode key alg.

Definition decode_refresh_token (refresh_token : Jose.token) : M jval :=
  let* key := SECRET_KEY in
  let* alg := ALGORITHM in
  except_JWTError
    (let* payload := jwt_decode refresh_token key [alg] in
     let* scope := getitem payload "scope" in
     if bool_decide (scope = JStr "refresh_token") then
       let* email := getitem payload "sub" in
       ret email
     else
       raise (HTTPException HTTP_401_UNAUTHORIZED
                "Invalid scope for token" []))
    (λ _, raise (HTTPException HTTP_401_UNAUTHORIZED
                   "Could not validate credentials" [])).

Definition credentials_exception : exn :=
  HTTPException HTTP_401_UNAUTHORIZED "Could not validate credentials"
    [("WWW-Authenticate", "Bearer")].

(** The [try] block of [get_current_user] (lines 133-143): the subject
    of an access token. *)
Definition get_current_user_email (token : Jose.token) : M jval :=
  let* key := SECRET_KEY in
  let* alg := ALGORITHM in
  except_JWTError
    (let* payload := jwt_decode token key [alg] in
     let* scope := getitem payload "scope" in
     if bool_decide (scope = JStr "access_token") then
       let* email := getitem payload "sub" in
       if bool_decide (email = JNull) then raise credentials_exception
       else ret email
     else
       raise credentials_exception)
    (λ _, raise credentials_exception).

Definition get_current_user (token : Jose.token) : M User.t :=
  let* email := get_current_user_email token in
  let* user := r_get ("user:" +:+ py_str email) in
  match user with
  | None =>
      let* user := repository_users.get_user_by_email email in
      match user with
      | None => raise credentials_exception
      | Some user =>
          await_client (r_set ("user:" +:+ py_str email)
                          (Redis.pickle_dumps user));;
          await_client (r_expire ("user:" +:+ py_str email) 900);;
          ret user
      end
  | Some user => ret (Redis.pickle_loads user)
  end.

Definition create_email_token (data : gmap string jval) : M Jose.token :=
  let to_encode := data in
  let* now := ask utcnow in
  let expire := now + days 7 in
  let to_encode := <["exp" := JInt expire]> (<["iat" := JInt now]> to_encode) in
  let* key := SECRET_KEY in
  let* alg := ALGORITHM in
  jwt_encode to_encode key alg.

Definition get_email_from_token (token : Jose.token) : M jval :=
  let* key := SECRET_KEY in
  let* alg := ALGORITHM in
  except_JWTError
    (let* payload := jwt_decode token key [alg] in
     let* email := getitem payload "sub" in
     ret email)
    (λ _, raise (HTTPException HTTP_422_UNPROCESSABLE_ENTITY
                   "Invalid token for email verification" [])).

(** [pwd_context.hash(password)], under the salt the context draws. *)
Definition get_password_hash (salt password : string) : Passlib.digest :=
  Passlib.hash salt password.

End Auth.

(** ** [src/schemas.py] *)

Module schemas.

Record TokenModel := {
  access_token : Jose.token;
  refresh_token : Jose.token;
  token_type : string;
}.

Record UserModel := {
  username : string;
  email : string;
  password : string;
}.

End schemas.

(** ** [src/routes/auth.py] *)

Module routes_auth.

Definition login (username password : string) : M schemas.TokenModel :=
  let* user := repository_users.get_user_by_email (JStr username) in
  match user with
  | None =>
      raise (HTTPException HTTP_401_UNAUTHORIZED "Invalid email" [])
  | Some user =>
      if negb (User.confirmed user) then
        raise (HTTPException HTTP_401_UNAUTHORIZED "Email not confirmed" [])
      else
        let* ok := Auth.verify_password password (User.password user) in
        if negb ok then
          raise (HTTPException HTTP_401_UNAUTHORIZED "Invalid password" [])
        else
          let* access_token :=
            Auth.create_access_token {["sub" := JStr (User.email user)]} None in
          let* refresh_token :=
            Auth.create_refresh_token {["sub" := JStr (User.email user)]} None in
          repository_users.update_token (Some user) (Some refresh_token);;
          ret {| schemas.access_token := access_token;
                 schemas.refresh_token := refresh_token;
                 schemas.token_type := "bearer" |}
  end.

Definition refresh_token (token : Jose.token) : M schemas.TokenModel :=
  let* email := Auth.decode_refresh_token token in
  let* user := repository_users.get_user_by_email email in
  let* stored := getattr user "refresh_token" User.refresh_token in
  if negb (bool_decide (stored = Some token)) then
    repository_users.update_token user None;;
    raise (HTTPException HTTP_401_UNAUTHORIZED "Invalid refresh token" [])
  else
    let* access_token := Auth.create_access_token {["sub" := email]} None in
    let* refresh_token := Auth.create_refresh_token {["sub" := email]} None in
    repository_users.update_token user (Some refresh_token);;
    ret {| schemas.access_token := access_token;
           schemas.refresh_token := refresh_token;
           schemas.token_type := "bearer" |}.

Definition confirmed_email (token : Jose.token) : M string :=
  let* email := Auth.get_email_from_token token in
  let* user := repository_users.get_user_by_email email in
  match user with
  | None => raise (HTTPException HTTP_400_BAD_REQUEST "Verification error" [])
  | Some user =>
      if User.confirmed user then ret "Your email is already confirmed"
      else
        repository_users.confirmed_email email;;
        ret "Email confirmed"
  end.

Definition request_email (email : string) : M string :=
  let* user := repository_users.get_user_by_email (JStr email) in
  let* confirmed := getattr user "confirmed" User.confirmed in
  if confirmed then ret "Your email is already confirmed"
  else
    match user with
    | Some user => tell (MailTask (User.email user))
    | None => ret tt
    end;;
    ret "Check your email for confirmation.".

(** [salt], [gravatar] and [new_id] are what the hashing context, Gravatar
    and the database contribute to this request. The answer is the new
    user with the detail message. *)
Definition signup (salt : string) (gravatar : option string) (new_id : Z)
    (body : schemas.UserModel) : M (User.t * string) :=
  let* exist_user :=
    repository_users.get_user_by_email (JStr (schemas.email body)) in
  match exist_user with
  | Some _ =>
      raise (HTTPException HTTP_409_CONFLICT "Account already exists" [])
  | None =>
      let password := Auth.get_password_hash salt (schemas.password body) in
      let* new_user :=
        repository_users.create_user gravatar new_id
          (schemas.username body) (schemas.email body) password in
      tell (MailTask (User.email new_user));;
      ret (new_user,
           "User successfully created. Check your email for confirmation.")
  end.

End routes_auth.

(** ** The contacts table *)

Module Contact.

Record date := mkdate { year : Z; month : Z; day : Z }.

#[global] Instance date_eq_dec : EqDecision date.
Proof. solve_decision. Defined.

(** The proleptic Gregorian calendar of Python's [datetime.date]. *)
Definition is_leap (y : Z) : bool :=
  (y mod 4 =? 0) && (negb (y mod 100 =? 0) || (y mod 400 =? 0)).

Definition days_in_month (y m : Z) : Z :=
  match m with
  | 1 | 3 | 5 | 7 | 8 | 10 | 12 => 31
  | 4 | 6 | 9 | 11 => 30
  | 2 => if is_leap y then 29 else 28
  | _ => 0
  end.

Definition days_before_month (y m : Z) : Z :=
  match m with
  | 1 => 0 | 2 => 31 | 3 => 59 | 4 => 90 | 5 => 120 | 6 => 151
  | 7 => 181 | 8 => 212 | 9 => 243 | 10 => 273 | 11 => 304 | 12 => 334
  | _ => 0
  end + (if (2 <? m) && is_leap y then 1 else 0).

Definition days_before_year (y : Z) : Z :=
  (y - 1) * 365 + (y - 1) / 4 - (y - 1) / 100 + (y - 1) / 400.

(** [d.toordinal()]: the day number, 1 for 0001-01-01. *)
Definition toordinal (d : date) : Z :=
  days_before_year (year d) + days_before_month (year d) (month d) + day d.

(** The dates a [date] object can hold. *)
Definition valid (d : date) : Prop :=
  1 ≤ year d ≤ 9999 ∧ 1 ≤ month d ≤ 12
  ∧ 1 ≤ day d ≤ days_in_month (year d) (month d).

(** [d.replace(year=y)]; [None] stands for [ValueError] ("day is out of
    range for month"). *)
Definition replace_year (d : date) (y : Z) : option date :=
  if day d <=? days_in_month y (month d)
  then Some (mkdate y (month d) (day d))
  else None.

(** The [Contact] table of [src/database/models.py] is not among the
    sources; the columns are those [create] assigns, with the primary key
    the queries filter on. The timestamps [created_at] and [updated_at]
    that [ContactResponse] reads are filled in by the database and not
    written by the repository; they are left out. *)
Record t := mk {
  id : Z;
  first_name : string;
  last_name : string;
  email : string;
  phone : option string;
  birthday : option date;
  comments : option string;
  favorite : bool;
  user_id : Z;
}.

#[global] Instance eq_dec : EqDecision t.
Proof. solve_decision. Defined.

End Contact.

(** [ContactModel] and [ContactFavoriteModel] of [src/schemas.py] *)
Module ContactModel.

Record t := mk {
  first_name : string;
  last_name : string;
  email : string;
  phone : option string;
  birthday : option Contact.date;
  comments : option string;
  favorite : bool;
}.

End ContactModel.

Module ContactFavoriteModel.

Record t := mk { favorite : bool }.

End ContactFavoriteModel.

(** ** [src/repository/contacts.py]

    The functions take the rows of the contacts table in the order the
    database returns them and give back their answer with the rows after
    the commit. [skip] and [limit] are the non-negative numbers the
    database takes as OFFSET and LIMIT. The text search
    ([search_contacts], a LIKE pattern built in SQL) is not modelled. *)

Module repos_contacts.

(** [query.offset(skip).limit(limit).all()], after the two [filter_by] *)
Definition get_contacts (user : User.t) (rows : list Contact.t)
    (skip limit : nat) (favorite : option bool) : list Contact.t :=
  let query := filter (λ c, Contact.user_id c = User.id user) rows in
  let query :=
    match favorite with
    | Some flag => filter (λ c, Contact.favorite c = flag) query
    | None => query
    end in
  take limit (drop skip query).

Definition get_contact_by_id (contact_id : Z) (rows : list Contact.t)
    (user : User.t) : option Contact.t :=
  head (filter (λ c, Contact.id c = contact_id
                     ∧ Contact.user_id c = User.id user) rows).

Definition get_contact_by_email (email : string) (rows : list Contact.t)
    (user : User.t) : option Contact.t :=
  head (filter (λ c, Contact.email c = email
                     ∧ Contact.user_id c = User.id user) rows).

(** [new_id] is the primary key the database assigns on insert.
    [db.commit()] raises [IntegrityError] when a constraint of the
    contacts table refuses the new row. The constraints are declared in
    [src/database/models.py], which is not among the sources: [accepts]
    is the decision of the database for a table and a new row. *)
Definition create (accepts : list Contact.t → Contact.t → bool)
    (new_id : Z) (body : ContactModel.t)
    (rows : list Contact.t) (user : User.t)
  : result Contact.t * list Contact.t :=
  let contact :=
    Contact.mk new_id (ContactModel.first_name body)
      (ContactModel.last_name body) (ContactModel.email body)
      (ContactModel.phone body) (ContactModel.birthday body)
      (ContactModel.comments body) (ContactModel.favorite body)
      (User.id user) in
  if accepts rows contact then (Return contact, (rows ++ [contact])%list)
  else (Raise IntegrityError, rows).

(** The seven assignments of [update] on a mapped row. *)
Definition assign (body : ContactModel.t) (c : Contact.t) : Contact.t :=
  Contact.mk (Contact.id c) (ContactModel.first_name body)
    (ContactModel.last_name body) (ContactModel.email body)
    (ContactModel.phone body) (ContactModel.birthday body)
    (ContactModel.comments body) (ContactModel.favorite body)
    (Contact.user_id c).

Definition set_favorite (flag : bool) (c : Contact.t) : Contact.t :=
  Contact.mk (Contact.id c) (Contact.first_name c) (Contact.last_name c)
    (Contact.email c) (Contact.phone c) (Contact.birthday c)
    (Contact.comments c) flag (Contact.user_id c).

(** Committing the changes made to the mapped object [contact] rewrites
    the row with its primary key. *)
Definition commit_row (contact : Contact.t) (change : Contact.t → Contact.t)
    (rows : list Contact.t) : list Contact.t :=
  map (λ row, if bool_decide (Contact.id row = Contact.id contact)
              then change row else row) rows.

Definition update (contact_id : Z) (body : ContactModel.t)
    (rows : list Contact.t) (user : User.t)
  : option Contact.t * list Contact.t :=
  match get_contact_by_id contact_id rows user with
  | Some contact =>
      (Some (assign body contact), commit_row contact (assign body) rows)
  | None => (None, rows)
  end.

Definition favorite_update (contact_id : Z) (body : ContactFavoriteModel.t)
    (rows : list Contact.t) (user : User.t)
  : option Contact.t * list Contact.t :=
  match get_contact_by_id contact_id rows user with
  | Some contact =>
      (Some (set_favorite (ContactFavoriteModel.favorite body) contact),
       commit_row contact
         (set_favorite (ContactFavoriteModel.favorite body)) rows)
  | None => (None, rows)
  end.


(** What [search_birthday] ends in: its list, or the [ValueError] of
    [date.replace]. *)
Inductive raised (A : Type) :=
| Ok (a : A)
| ValueError (message : string).
Arguments Ok {A} a.
Arguments ValueError {A} message.

(** [days_until_birthday in range(days)] *)
Definition in_range (n : Z) (stop : nat) : bool :=
  (0 <=? n) && (n <? Z.of_nat stop).

(** The loop of [search_birthday] over the contacts of the page, with
    the list built so far. *)
Fixpoint birthday_loop (days : nat) (now : Contact.date)
    (contacts birthdays_contacts : list Contact.t)
  : raised (list Contact.t) :=
  match contacts with
  | [] => Ok birthdays_contacts
  | contact :: contacts =>
      match Contact.birthday contact with
      | Some birthday =>
          match Contact.replace_year birthday (Contact.year now) with
          | None => ValueError "day is out of range for month"
          | Some birthday_this_year =>
              let days_until_birthday :=
                Contact.toordinal birthday_this_year - Contact.toordinal now in
              if in_range days_until_birthday days
              then birthday_loop days now contacts
                     (birthdays_contacts ++ [contact])
              else birthday_loop days now contacts birthdays_contacts
          end
      | None => birthday_loop days now contacts birthdays_contacts
      end
  end.

(** [now] is [datetime.now().date()]. A key missing from [par] gives the
    default 7 for the days and no offset or limit for the page. *)
Definition search_birthday (now : Contact.date) (par : gmap string nat)
    (rows : list Contact.t) (user : User.t) : raised (list Contact.t) :=
  let days_param := default 7%nat (par !! "days") in
  let days := days_param in
  let days := (days + 1)%nat in
  let query := filter (λ c, Contact.user_id c = User.id user) rows in
  let contacts :=
    from_option (λ n, take n) id (par !! "limit")
      (from_option (λ n, drop n) id (par !! "skip") query) in
  birthday_loop days now contacts [].

End repos_contacts.

(** ** [src/routes/contacts.py]

    [current_user] is what [get_current_user] resolved for the request. *)

Module routes_contacts.

Definition not_found {A} (rows : list Contact.t)
  : result A * list Contact.t :=
  (Raise (HTTPException HTTP_404_NOT_FOUND "Not found" []), rows).

Definition get_contacts (skip limit : nat) (favorite : option bool)
    (rows : list Contact.t) (current_user : User.t) : list Contact.t :=
  repos_contacts.get_contacts current_user rows skip limit favorite.

Definition get_contact (contact_id : Z) (rows : list Contact.t)
    (current_user : User.t) : result Contact.t * list Contact.t :=
  match repos_contacts.get_contact_by_id contact_id rows current_user with
  | None => not_found rows
  | Some contact => (Return contact, rows)
  end.

(** The handler of [IntegrityError] builds its [HTTPException] from
    [status.HTTP_404_INVALID_REQUEST], a name the [status] module does
    not have: evaluating it raises [AttributeError] in place of the
    response. *)
Definition create_contact (accepts : list Contact.t → Contact.t → bool)
    (new_id : Z) (body : ContactModel.t)
    (rows : list Contact.t) (current_user : User.t)
  : result Contact.t * list Contact.t :=
  match repos_contacts.get_contact_by_email (ContactModel.email body) rows
          current_user with
  | Some _ =>
      (Raise (HTTPException HTTP_409_CONFLICT "Email already exists!" []),
       rows)
  | None =>
      match repos_contacts.create accepts new_id body rows current_user with
      | (Raise IntegrityError, rows) =>
          (Raise (AttributeError
                    ("module 'starlette.status' has no attribute "
                     +:+ "'HTTP_404_INVALID_REQUEST'")),
           rows)
      | (outcome, rows) => (outcome, rows)
      end
  end.

Definition update_contact (body : ContactModel.t) (contact_id : Z)
    (rows : list Contact.t) (current_user : User.t)
  : result Contact.t * list Contact.t :=
  match repos_contacts.update contact_id body rows current_user with
  | (None, rows) => not_found rows
  | (Some contact, rows) => (Return contact, rows)
  end.

Definition favorite_update (body : ContactFavoriteModel.t) (contact_id : Z)
    (rows : list Contact.t) (current_user : User.t)
  : result Contact.t * list Contact.t :=
  match repos_contacts.favorite_update contact_id body rows current_user with
  | (None, rows) => not_found rows
  | (Some contact, rows) => (Return contact, rows)
  end.


(** The birthdays route; [days] is at least 1 by validation, so the
    repository is always asked. *)
Definition search_contacts (now : Contact.date) (days skip limit : nat)
    (rows : list Contact.t) (current_user : User.t)
  : repos_contacts.raised (result (list Contact.t)) :=
  let contacts :=
    if bool_decide (days ≠ 0%nat) then
      let par : gmap string nat :=
        <["limit" := limit]> (<["skip" := skip]> {["days" := days]}) in
      match repos_contacts.search_birthday now par rows current_user with
      | repos_contacts.Ok found => repos_contacts.Ok (Some found)
      | repos_contacts.ValueError message =>
          repos_contacts.ValueError message
      end
    else repos_contacts.Ok None in
  match contacts with
  | repos_contacts.ValueError message => repos_contacts.ValueError message
  | repos_contacts.Ok (Some (contact :: found)) =>
      repos_contacts.Ok (Return (contact :: found))
  | repos_contacts.Ok _ =>
      repos_contacts.Ok
        (Raise (HTTPException HTTP_404_NOT_FOUND "No contacts found" []))
  end.

End routes_contacts.

(** ** Vocabulary of the specification *)

(** The failure kinds of the specification, as the exceptions the routes
    raise for them. *)
Definition RevokedToken : exn :=
  HTTPException 401 "Invalid refresh token" [].
Definition EmailNotConfirmed : exn :=
  HTTPException 401 "Email not confirmed" [].
Definition CouldNotValidate : exn :=
  HTTPException 401 "Could not validate credentials" [].

Definition is_lookup (e : event) : bool :=
  match e with DbQuery _ => true | _ => false end.
Definition is_cache_write (e : event) : bool :=
  match e with CacheSet _ => true | _ => false end.
Definition is_verify (e : event) : bool :=
  match e with PasswordVerify => true | _ => false end.

(** How many events of a kind a trace holds. *)
Definition count (kind : event → bool) (tr : list event) : nat :=
  length (List.filter kind tr).
Arguments count kind !tr /.

(** ** Scopes and claims *)

(** The two scopes of session tokens, with the issuing and the decoding
    function the service has for each. *)
Inductive Scope := Access | Refresh.

Definition scope_tag (sc : Scope) : string :=
  match sc with
  | Access => "access_token"
  | Refresh => "refresh_token"
  end.

Definition issue (sc : Scope) (subject : string) (ttl : Pyfloat.t)
  : M Jose.token :=
  match sc with
  | Access => Auth.create_access_token {["sub" := JStr subject]} (Some ttl)
  | Refresh => Auth.create_refresh_token {["sub" := JStr subject]} (Some ttl)
  end.

(** The [exp] claim of a token issued in [w] with a lifetime of [ttl]
    seconds, and whether the runtime can form that moment: the
    [timedelta] holds the lifetime and the sum is a [datetime]. *)
Definition expires_at (w : World) (ttl : Q) : Z :=
  Auth.timegm (instant w + Pyfloat.microseconds ttl).

Definition datetime_reaches (w : World) (ttl : Q) : bool :=
  Pyfloat.timedelta_fits (Pyfloat.microseconds ttl)
  && Pyfloat.representable (instant w + Pyfloat.microseconds ttl).

Definition decode (sc : Scope) (token : Jose.token) : M jval :=
  match sc with
  | Access => Auth.get_current_user_email token
  | Refresh => Auth.decode_refresh_token token
  end.

(** The claims of a session token issued at [now]. *)
Definition session_claims (tag subject : string) (now expire : Z)
  : gmap string jval :=
  <["scope" := JStr tag]>
    (<["exp" := JInt expire]>
       (<["iat" := JInt now]> {["sub" := JStr subject]})).

(** The failure each decoder raises for a token that [jwt.decode]
    rejects, and for one it accepts with another scope. *)
Definition rejected_failure (sc : Scope) : exn :=
  match sc with
  | Access => Auth.credentials_exception
  | Refresh => CouldNotValidate
  end.


(** The cache key of a subject. *)
Definition cache_key (email : jval) : string := "user:" +:+ py_str email.

(** The world after a resolution that missed the cache and found [user]:
    the entry is written, and given its time to live when the value of
    [set] could be awaited. *)
Definition after_miss (email : jval) (user : User.t) (w : World) : World :=
  let k := cache_key email in
  let written :=
    with_r (Redis.set (r w) k (Redis.pickle_dumps user))
      (emit (CacheSet k) (emit (DbQuery email) (emit (CacheGet k) w))) in
  if Redis.awaitable (r w) then
    with_r (Redis.expire (r written) (utcnow w) k 900)
      (emit (CacheExpire k) written)
  else written.

(** ** Sample data *)

Module Sample.

Definition session_token (tag subject : string) (now ttl : Z)
  : Jose.token :=
  let claims := session_claims tag subject now (now + ttl) in
  Jose.Compact "HS256" claims (Jose.Hmac "secret" "HS256" claims).


Definition alice : User.t :=
  User.mk 1 "alice" "a@x.com" (Passlib.hash "salt" "secret1")
    None None true.

(** Registered, not yet confirmed. *)
Definition bob : User.t :=
  User.mk 2 "bobby" "b@x.com" (Passlib.hash "pepper" "hunter2")
    None None false.

Definition client : Redis.t := Redis.mk ∅ (λ _, false) true.

(** A client that answers reads and fails on [SET]. *)
Definition read_only_client : Redis.t :=
  Redis.mk ∅ (λ op, match op with Redis.SET => true | _ => false end) true.

Definition world (now : Z) : World :=
  mkWorld default_settings [alice; bob] client now 250000 [].

Definition cache_down (now : Z) : World :=
  mkWorld default_settings [alice; bob] read_only_client now 250000 [].

(** Alice logged in at 900 and again at 1000: the directory holds the
    refresh token of the second login. *)
Definition alice_logged_in : User.t :=
  User.mk 1 "alice" "a@x.com" (Passlib.hash "salt" "secret1") None
    (Some (session_token "refresh_token" "a@x.com" 1000 (Auth.days 7)))
    true.

Definition logged_in (now : Z) : World :=
  mkWorld default_settings [alice_logged_in; bob] client now 250000 [].

End Sample.

(** ** Issued tokens *)

(** The token the service signs for a set of claims. *)
Definition signed (w : World) (claims : gmap string jval) : Jose.token :=
  Jose.Compact (algorithm (settings w)) claims
    (Jose.Hmac (secret_key (settings w)) (algorithm (settings w)) claims).

(** The session tokens of a login or refresh at the clock of [w]. *)
Definition access_token_at (w : World) (subject : string) : Jose.token :=
  signed w (session_claims "access_token" subject (utcnow w)
              (utcnow w + Auth.minutes 15)).

Definition refresh_token_at (w : World) (subject : string) : Jose.token :=
  signed w (session_claims "refresh_token" subject (utcnow w)
              (utcnow w + Auth.days 7)).

(** The claims of an email-confirmation token: no scope. *)
Definition email_claims (subject : string) (now : Z) : gmap string jval :=
  <["exp" := JInt (now + Auth.days 7)]>
    (<["iat" := JInt now]> {["sub" := JStr subject]}).


(** A row of the users table with the refresh-token column left out. *)
Definition without_token (u : User.t) : User.t :=
  User.mk (User.id u) (User.username u) (User.email u) (User.password u)
    (User.avatar u) None (User.confirmed u).

(** The row sign-up creates. *)
Definition signed_up (salt : string) (gravatar : option string)
    (new_id : Z) (body : schemas.UserModel) : User.t :=
  User.mk new_id (schemas.username body) (schemas.email body)
    (Passlib.Bcrypt salt (schemas.password body)) gravatar None false.

(** ** Birthdays *)

(** The contacts [search_birthday] loops over. *)
Definition scanned (par : gmap string nat) (rows : list Contact.t)
    (user : User.t) : list Contact.t :=
  from_option (λ n, take n) id (par !! "limit")
    (from_option (λ n, drop n) id (par !! "skip")
       (filter (λ c, Contact.user_id c = User.id user) rows)).

(** The anniversary of a birthday in the year of [now], as month and day
    put into that year. *)
Definition anniversary (now birthday : Contact.date) : Contact.date :=
  Contact.mkdate (Contact.year now) (Contact.month birthday)
    (Contact.day birthday).

(** A contact whose birthday falls on a day the year of [now] lacks. *)
Definition unplaceable (now : Contact.date) (c : Contact.t) : Prop :=
  ∃ birthday, Contact.birthday c = Some birthday
              ∧ Contact.replace_year birthday (Contact.year now) = None.

(** A contact whose anniversary is 0 to [days] days after [now]. *)
Definition due (days : nat) (now : Contact.date) (c : Contact.t) : Prop :=
  ∃ birthday,
    Contact.birthday c = Some birthday ∧
    Contact.replace_year birthday (Contact.year now)
    = Some (anniversary now birthday) ∧
    0 ≤ Contact.toordinal (anniversary now birthday) - Contact.toordinal now
      ≤ Z.of_nat days.

(** The page of the user's contacts that the birthdays route scans. *)
Definition birthday_page (skip limit : nat) (rows : list Contact.t)
    (user : User.t) : list Contact.t :=
  take limit (drop skip
                (filter (λ c, Contact.user_id c = User.id user) rows)).

(** The columns of a contact other than the favorite flag. *)
Definition besides_favorite (c : Contact.t)
  : Z * string * string * string * option string * option Contact.date
    * option string * Z :=
  (Contact.id c, Contact.first_name c, Contact.last_name c, Contact.email c,
   Contact.phone c, Contact.birthday c, Contact.comments c,
   Contact.user_id c).

(** Month and day of [d1] come before month and day of [d2]. *)
Definition earlier_in_year (d1 d2 : Contact.date) : Prop :=
  Contact.month d1 < Contact.month d2
  ∨ (Contact.month d1 = Contact.month d2 ∧ Contact.day d1 < Contact.day d2).

(** ** More sample data *)

Module Scenario.

(** Alice's session tokens of a login at 1000 and the refresh token of an
    earlier login at 900. *)
Definition alice_access : Jose.token :=
  Sample.session_token "access_token" "a@x.com" 1000 (Auth.minutes 15).
Definition stored_refresh : Jose.token :=
  Sample.session_token "refresh_token" "a@x.com" 1000 (Auth.days 7).
Definition first_refresh : Jose.token :=
  Sample.session_token "refresh_token" "a@x.com" 900 (Auth.days 7).


(** Alice is cached, and the users table has lost every row. *)
Definition cached_only : World :=
  mkWorld default_settings []
    (Redis.set Sample.client "user:a@x.com" (Redis.pickle_dumps Sample.alice))
    1000 250000 [].

Definition carol : schemas.UserModel :=
  {| schemas.username := "carol"; schemas.email := "c@x.com";
     schemas.password := "s3cret" |}.

(** Two contacts of Alice (id 1) and one of Bob (id 2). *)
Definition dora : Contact.t :=
  Contact.mk 1 "Dora" "Diaz" "dora@x.com" None
    (Some (Contact.mkdate 1990 1 2)) None false 1.
Definition emil : Contact.t :=
  Contact.mk 2 "Emil" "Eco" "emil@x.com" None
    (Some (Contact.mkdate 1988 12 31)) None true 1.
Definition fay : Contact.t :=
  Contact.mk 3 "Fay" "Fox" "fay@x.com" None
    (Some (Contact.mkdate 1992 2 29)) None false 2.

Definition contacts : list Contact.t := [dora; emil; fay].

Definition gus : ContactModel.t :=
  ContactModel.mk "Gus" "Gray" "gus@x.com" (Some "555") None None true.

End Scenario.

(** * Properties *)

(** ** Reasoning about computations *)

Ltac run :=
  cbv [bind ret raise ask tell getitem getattr except_JWTError
       jwt_decode jwt_encode]; simpl.

Lemma count_app kind (tr1 tr2 : list event) :
  count kind (tr1 ++ tr2) = (count kind tr1 + count kind tr2)%nat.
Proof. unfold count. by rewrite List.filter_app, length_app. Qed.

Lemma trace_emit e w : trace (emit e w) = (trace w ++ [e])%list.
Proof. reflexivity. Qed.

Section Directory.
Import repository_users.

Lemma query_first_store_token email user token rows :
  query_first email rows = Some user →
  query_first email (store_token user token rows)
  = Some (User.set_refresh_token token user).
Proof.
  unfold query_first, store_token.
  induction rows as [|row rows IH]; simpl; [done|].
  rewrite !filter_cons. simpl.
  destruct (decide (JStr (User.email row) = email)) as [Hrow|Hrow].
  - simpl. intros [= ->].
    rewrite bool_decide_eq_true_2 by done. simpl.
    by rewrite decide_True.
  - intros Hrest.
    assert (JStr (User.email
              (if bool_decide (User.id row = User.id user)
               then User.set_refresh_token token row else row)) ≠ email)
      by (by case_bool_decide).
    rewrite decide_False by done. by apply IH.
Qed.

Lemma store_token_nothing_new user rows (row : User.t) :
  row ∈ store_token user None rows →
  User.refresh_token row = None ∨ row ∈ rows.
Proof.
  unfold store_token. intros (old & -> & Hold)%list_elem_of_fmap.
  case_bool_decide; [by left | by right].
Qed.

End Directory.

(** ** The decoders only read the world *)

Ltac decoder_cases :=
  repeat match goal with
         | |- context [Jose.decode ?t ?k ?a ?n] =>
             destruct (Jose.decode t k a n) as [?|?]; simpl
         | |- context [match ?p !! ?k with _ => _ end] =>
             destruct (p !! k) as [?|]; simpl
         | |- context [bool_decide ?P] =>
             destruct (bool_decide P); simpl
         end.

Lemma decode_refresh_token_world t w :
  (Auth.decode_refresh_token t w).2 = w.
Proof.
  unfold Auth.decode_refresh_token, Auth.SECRET_KEY, Auth.ALGORITHM.
  run. decoder_cases; reflexivity.
Qed.

Lemma get_current_user_email_world t w :
  (Auth.get_current_user_email t w).2 = w.
Proof.
  unfold Auth.get_current_user_email, Auth.SECRET_KEY, Auth.ALGORITHM.
  run. decoder_cases; reflexivity.
Qed.

Lemma get_email_from_token_world t w :
  (Auth.get_email_from_token t w).2 = w.
Proof.
  unfold Auth.get_email_from_token, Auth.SECRET_KEY, Auth.ALGORITHM.
  run. decoder_cases; reflexivity.
Qed.

(** The outcome of the access-token decode depends on the configuration
    and the clock only. *)
Lemma get_current_user_email_frame t w w' :
  settings w = settings w' → utcnow w = utcnow w' →
  (Auth.get_current_user_email t w).1 = (Auth.get_current_user_email t w').1.
Proof.
  intros Hs Hn.
  unfold Auth.get_current_user_email, Auth.SECRET_KEY, Auth.ALGORITHM.
  run. rewrite Hs, Hn. decoder_cases; reflexivity.
Qed.

Lemma run_fst_snd {A} (m : M A) w a :
  (m w).1 = a → (m w).2 = w → m w = (a, w).
Proof. destruct (m w); simpl; congruence. Qed.

(** ** Session manager: refresh *)

(** C9. A refresh call with a validly signed, unexpired refresh-scoped
    token whose subject has no row in the directory reads the
    [refresh_token] attribute of [None]: it ends in an [AttributeError],
    not in one of the HTTP failures, after the one directory query. *)
Theorem refresh_unknown_subject_dereferences_none
    (w : World) (token : Jose.token) (email : jval) :
  (Auth.decode_refresh_token token w).1 = Return email →
  repository_users.query_first email (db w) = None →
  routes_auth.refresh_token token w
  = (Raise (AttributeError
              "'NoneType' object has no attribute 'refresh_token'"),
     emit (DbQuery email) w).
Proof.
  intros Hdec Hnone.
  apply run_fst_snd in Hdec; [|apply decode_refresh_token_world].
  unfold routes_auth.refresh_token, bind at 1. rewrite Hdec.
  unfold repository_users.get_user_by_email. run.
  by rewrite Hnone.
Qed.

(** C1. When the presented token decodes with scope refresh and the
    identity found for its subject stores a different refresh-token value,
    the call fails with [RevokedToken]; the row then found for the subject
    has [None] as its stored refresh token and its other columns as
    before, and no row of the directory holds a token it did not hold
    before. *)
Theorem refresh_mismatch_revokes
    (w : World) (token : Jose.token) (email : jval) (user : User.t) :
  (Auth.decode_refresh_token token w).1 = Return email →
  repository_users.query_first email (db w) = Some user →
  User.refresh_token user ≠ Some token →
  let (outcome, w') := routes_auth.refresh_token token w in
  outcome = Raise RevokedToken ∧
  repository_users.query_first email (db w')
  = Some (User.mk (User.id user) (User.username user) (User.email user)
            (User.password user) (User.avatar user) None
            (User.confirmed user)) ∧
  (∀ row, row ∈ db w' → User.refresh_token row = None ∨ row ∈ db w).
Proof.
  intros Hdec Hfound Hdiff.
  apply run_fst_snd in Hdec; [|apply decode_refresh_token_world].
  unfold routes_auth.refresh_token, bind at 1. rewrite Hdec.
  unfold repository_users.get_user_by_email,
    repository_users.update_token. run.
  rewrite Hfound. simpl.
  rewrite bool_decide_eq_false_2 by done. simpl.
  split; [reflexivity|]. split.
  - by apply query_first_store_token.
  - apply store_token_nothing_new.
Qed.

(** ** Session manager: login *)

(** C2. Login on an account whose [confirmed] flag is false fails with
    [EmailNotConfirmed] whatever password is supplied; the only effect is
    the directory query, so no password verification has run. *)
Theorem login_unconfirmed
    (w : World) (username password : string) (user : User.t) :
  repository_users.query_first (JStr username) (db w) = Some user →
  User.confirmed user = false →
  routes_auth.login username password w
  = (Raise EmailNotConfirmed, emit (DbQuery (JStr username)) w)
  ∧ count is_verify (trace (routes_auth.login username password w).2)
    = count is_verify (trace w).
Proof.
  intros Hfound Hflag.
  assert (routes_auth.login username password w
          = (Raise EmailNotConfirmed, emit (DbQuery (JStr username)) w))
    as Hrun.
  { unfold routes_auth.login, repository_users.get_user_by_email. run.
    rewrite Hfound. simpl. by rewrite Hflag. }
  split; [exact Hrun|].
  rewrite Hrun. simpl. rewrite count_app. simpl. lia.
Qed.

(** ** Auth workflow: resend *)

(** C10. A resend-confirmation call for an email with no registered user
    reads the [confirmed] attribute of [None] before the existence check:
    it ends in an [AttributeError] instead of an outcome message, and no
    mail task is added. *)
Theorem request_email_unknown_dereferences_none (w : World) (email : string) :
  repository_users.query_first (JStr email) (db w) = None →
  routes_auth.request_email email w
  = (Raise (AttributeError "'NoneType' object has no attribute 'confirmed'"),
     emit (DbQuery (JStr email)) w).
Proof.
  intros Hnone.
  unfold routes_auth.request_email, repository_users.get_user_by_email. run.
  by rewrite Hnone.
Qed.

(** ** Token codec *)

Lemma session_claims_lookup tag subject now expire :
  session_claims tag subject now expire !! "scope" = Some (JStr tag) ∧
  session_claims tag subject now expire !! "exp" = Some (JInt expire) ∧
  session_claims tag subject now expire !! "iat" = Some (JInt now) ∧
  session_claims tag subject now expire !! "sub" = Some (JStr subject).
Proof. unfold session_claims. by simplify_map_eq. Qed.

(** A token signed with the configured key and algorithm decodes to its
    own claims until the clock passes its expiry. *)
Lemma decode_signed key alg tag subject now expire at_ :
  at_ ≤ expire →
  Jose.decode
    (Jose.Compact alg (session_claims tag subject now expire)
       (Jose.Hmac key alg (session_claims tag subject now expire)))
    key [alg] at_
  = inr (session_claims tag subject now expire).
Proof.
  intros Hle.
  destruct (session_claims_lookup tag subject now expire)
    as (Hscope & Hexp & Hiat & Hsub).
  unfold Jose.decode.
  rewrite bool_decide_eq_true_2 by set_solver.
  rewrite bool_decide_eq_true_2 by done.
  rewrite Hiat, Hexp, Hsub. simpl.
  destruct (Z.ltb_spec expire at_); [lia|done].
Qed.

Lemma issue_token sc subject ttl w :
  Jose.supported (algorithm (settings w)) = true →
  Qnum ttl ≠ 0 →
  datetime_reaches w ttl = true →
  let claims :=
    session_claims (scope_tag sc) subject (utcnow w) (expires_at w ttl) in
  issue sc subject (Pyfloat.Finite ttl) w
  = (Return (Jose.Compact (algorithm (settings w)) claims
               (Jose.Hmac (secret_key (settings w))
                  (algorithm (settings w)) claims)), w).
Proof.
  intros Halg Httl [Hfits Hrepr]%andb_true_iff. simpl.
  assert ((Qnum ttl =? 0) = false) as Htr
    by (by destruct (Z.eqb_spec (Qnum ttl) 0)).
  destruct sc; unfold issue, Auth.create_access_token,
    Auth.create_refresh_token, Auth.expire_after, Auth.timedelta_seconds,
    Auth.datetime_add, Auth.SECRET_KEY, Auth.ALGORITHM;
    run; rewrite Htr; simpl; rewrite Hfits; simpl; rewrite Hrepr; simpl;
    unfold Jose.encode; rewrite Halg; reflexivity.
Qed.


(** C4, as the code has it. For every subject, either scope and every
    positive lifetime that the runtime can add to the clock (a [timedelta]
    of at most 999999999 days, a moment up to the year 9999), a freshly
    issued token decoded with the same expected scope, no later than the
    second of its expiry, yields claims with the issued subject and the
    issued scope, and the decoding function of the service returns that
    subject. *)
Theorem decode_issue_roundtrip
    (w : World) (sc : Scope) (subject : string) (ttl : Q) (later : Z) :
  Jose.supported (algorithm (settings w)) = true →
  (0 < ttl)%Q →
  datetime_reaches w ttl = true →
  later ≤ expires_at w ttl →
  ∃ token claims,
    issue sc subject (Pyfloat.Finite ttl) w = (Return token, w) ∧
    Jose.decode token (secret_key (settings w)) [algorithm (settings w)] later
    = inr claims ∧
    claims !! "sub" = Some (JStr subject) ∧
    claims !! "scope" = Some (JStr (scope_tag sc)) ∧
    decode sc token (at_time later w)
    = (Return (JStr subject), at_time later w).
Proof.
  intros Halg Httl Hfits Hlater.
  assert (Qnum ttl ≠ 0) as Hnz
    by (unfold Qlt in Httl; simpl in Httl; lia).
  pose proof (issue_token sc subject ttl w Halg Hnz Hfits) as Hissue.
  simpl in Hissue.
  set (claims := session_claims (scope_tag sc) subject (utcnow w)
                   (expires_at w ttl)) in *.
  pose proof (decode_signed (secret_key (settings w))
                (algorithm (settings w)) (scope_tag sc) subject (utcnow w)
                (expires_at w ttl) later Hlater) as Hdec.
  fold claims in Hdec.
  destruct (session_claims_lookup (scope_tag sc) subject (utcnow w)
              (expires_at w ttl)) as (Hscope & _ & _ & Hsub).
  fold claims in Hscope, Hsub.
  eexists _, claims. split; [exact Hissue|].
  split; [exact Hdec|]. split; [exact Hsub|]. split; [exact Hscope|].
  destruct sc; unfold decode, Auth.get_current_user_email,
    Auth.decode_refresh_token, Auth.SECRET_KEY, Auth.ALGORITHM;
    run; rewrite Hdec; simpl; rewrite Hscope; simpl; rewrite Hsub; done.
Qed.



(** C5, as the code has it. The confirmation decoder checks signature and
    expiry only: every token that [jwt.decode] accepts and that carries a
    subject is accepted, whether or not it carries a scope field. *)
Theorem get_email_from_token_ignores_scope
    (w : World) (token : Jose.token) (claims : gmap string jval)
    (email : jval) :
  Jose.decode token (secret_key (settings w)) [algorithm (settings w)]
    (utcnow w) = inr claims →
  claims !! "sub" = Some email →
  Auth.get_email_from_token token w = (Return email, w).
Proof.
  intros Hdec Hsub.
  unfold Auth.get_email_from_token, Auth.SECRET_KEY, Auth.ALGORITHM.
  run. rewrite Hdec. simpl. by rewrite Hsub.
Qed.

(** ** Credential hasher *)

(** C7, as the code has it. [verify_password] has no handler of its
    own: for a plaintext and a malformed digest, one for which the hashing
    context raises [UnknownHashError], the call raises that error and
    returns neither false nor any other value. *)
Theorem verify_password_outcome
    (w : World) (plain : string) (digest : Passlib.digest) :
  Passlib.verify plain digest = None →
  Auth.verify_password plain digest w
  = (Raise UnknownHashError, emit PasswordVerify w)
  ∧ ∀ answer : bool,
      (Auth.verify_password plain digest w).1 ≠ Return answer.
Proof.
  intros Hraises. unfold Auth.verify_password. run. rewrite Hraises.
  split; [reflexivity|]. intros answer. discriminate.
Qed.

(** ** Identity cache *)

Lemma redis_get_set c now k v :
  Redis.get (Redis.set c k v) now k = Some v.
Proof. unfold Redis.get, Redis.set. simpl. by rewrite lookup_insert_eq. Qed.

Lemma redis_get_set_expire c now k v seconds later :
  later < now + seconds →
  Redis.get (Redis.expire (Redis.set c k v) now k seconds) later k = Some v.
Proof.
  intros Hlater. unfold Redis.get, Redis.expire, Redis.set. simpl.
  rewrite lookup_alter_eq, lookup_insert_eq. simpl.
  unfold Redis.live. simpl.
  by destruct (Z.ltb_spec later (now + seconds)); [|lia].
Qed.

Lemma get_current_user_miss w token email user :
  (Auth.get_current_user_email token w).1 = Return email →
  (∀ op, Redis.faulty (r w) op = false) →
  Redis.get (r w) (utcnow w) (cache_key email) = None →
  repository_users.query_first email (db w) = Some user →
  Auth.get_current_user token w
  = (if Redis.awaitable (r w) then Return user
     else Raise (TypeError
                   "object bool can't be used in 'await' expression"),
     after_miss email user w).
Proof.
  intros Hdec Hok Hmiss Hfound.
  apply run_fst_snd in Hdec; [|apply get_current_user_email_world].
  unfold Auth.get_current_user, bind at 1. rewrite Hdec.
  unfold r_get, r_set, r_expire, await_client,
    repository_users.get_user_by_email, after_miss.
  fold (cache_key email). run.
  rewrite !Hok, Hmiss. simpl. rewrite Hfound. simpl. rewrite !Hok. simpl.
  destruct (Redis.awaitable (r w)) eqn:Haw; simpl; [|reflexivity].
  rewrite !Hok. simpl. rewrite Haw. reflexivity.
Qed.

(** C8, as the code has it. For a valid, unexpired access token whose
    subject is not in the identity cache and has a row in the directory,
    with the cache answering its calls, [get_current_user] makes exactly
    one directory query and exactly one cache write; a later call for the
    same subject, before 900 seconds have passed, makes no directory query
    and returns the cached snapshot. *)
Theorem get_current_user_caches
    (w : World) (token again : Jose.token) (email : jval) (user : User.t)
    (later : Z) :
  (Auth.get_current_user_email token w).1 = Return email →
  (∀ op, Redis.faulty (r w) op = false) →
  Redis.get (r w) (utcnow w) (cache_key email) = None →
  repository_users.query_first email (db w) = Some user →
  later < utcnow w + 900 →
  (Auth.get_current_user_email again (at_time later w)).1 = Return email →
  let w1 := (Auth.get_current_user token w).2 in
  let second := Auth.get_current_user again (at_time later w1) in
  count is_lookup (trace w1) = S (count is_lookup (trace w)) ∧
  count is_cache_write (trace w1) = S (count is_cache_write (trace w)) ∧
  second.1 = Return user ∧
  count is_lookup (trace second.2) = count is_lookup (trace w1).
Proof.
  intros Hdec Hok Hmiss Hfound Hlater Hagain w1 second.
  subst second w1.
  rewrite (get_current_user_miss w token email user) by done.
  cbn [snd].
  assert (trace (after_miss email user w)
          = (trace w ++ [CacheGet (cache_key email); DbQuery email;
                         CacheSet (cache_key email)]
                     ++ (if Redis.awaitable (r w)
                         then [CacheExpire (cache_key email)] else []))%list)
    as Htrace.
  { unfold after_miss. destruct (Redis.awaitable (r w)); simpl;
      by rewrite <- !app_assoc. }
  assert (Redis.get (r (after_miss email user w)) later (cache_key email)
          = Some (Redis.pickle_dumps user)) as Hhit.
  { unfold after_miss. destruct (Redis.awaitable (r w)); simpl.
    - by apply redis_get_set_expire.
    - apply redis_get_set. }
  assert (∀ op, Redis.faulty (r (after_miss email user w)) op = false)
    as Hok1.
  { intros op. unfold after_miss.
    destruct (Redis.awaitable (r w)); simpl; apply Hok. }
  assert (Auth.get_current_user again (at_time later (after_miss email user w))
          = (Return user,
             emit (CacheGet (cache_key email))
               (at_time later (after_miss email user w)))) as Hsecond.
  { assert ((Auth.get_current_user_email again
               (at_time later (after_miss email user w))).1 = Return email)
      as Hdec2.
    { rewrite <- Hagain. apply get_current_user_email_frame; [|done].
      unfold after_miss. by destruct (Redis.awaitable (r w)). }
    apply run_fst_snd in Hdec2; [|apply get_current_user_email_world].
    unfold Auth.get_current_user, bind at 1. rewrite Hdec2.
    unfold r_get. fold (cache_key email). run.
    rewrite Hok1, Hhit. reflexivity. }
  rewrite Hsecond. cbn [fst snd]. rewrite trace_emit. cbn [at_time trace].
  rewrite Htrace, !count_app.
  destruct (Redis.awaitable (r w)); simpl; repeat split; lia.
Qed.

(** C6, as the code has it. After a valid access token has been decoded,
    the cache has answered with a miss and the directory has the user, a
    failure of the cache write is not swallowed: the error of the client
    leaves [get_current_user] and no identity is returned. *)
Theorem cache_write_failure_propagates
    (w : World) (token : Jose.token) (email : jval) (user : User.t) :
  (Auth.get_current_user_email token w).1 = Return email →
  Redis.faulty (r w) Redis.GET = false →
  Redis.get (r w) (utcnow w) (cache_key email) = None →
  repository_users.query_first email (db w) = Some user →
  Redis.faulty (r w) Redis.SET = true →
  (Auth.get_current_user token w).1 = Raise ConnectionError.
Proof.
  intros Hdec Hget Hmiss Hfound Hset.
  apply run_fst_snd in Hdec; [|apply get_current_user_email_world].
  unfold Auth.get_current_user, bind at 1. rewrite Hdec.
  unfold r_get, r_set, await_client, repository_users.get_user_by_email.
  fold (cache_key email). run.
  rewrite Hget, Hmiss. simpl. rewrite Hfound. simpl. by rewrite Hset.
Qed.

(** * The statements at concrete inputs *)

(** A refresh token issued at 900 for a subject that has no row. *)
Lemma refresh_unknown_subject_dereferences_none_witness :
  routes_auth.refresh_token
    (Sample.session_token "refresh_token" "ghost@x.com" 900 (Auth.days 7))
    (Sample.world 1000)
  = (Raise (AttributeError
              "'NoneType' object has no attribute 'refresh_token'"),
     emit (DbQuery (JStr "ghost@x.com")) (Sample.world 1000)).
Proof.
  apply refresh_unknown_subject_dereferences_none;
    vm_compute; reflexivity.
Defined.

(** Alice presents the refresh token of her first login after her second
    login has replaced it. *)
Lemma refresh_mismatch_revokes_witness :
  let (outcome, w') :=
    routes_auth.refresh_token
      (Sample.session_token "refresh_token" "a@x.com" 900 (Auth.days 7))
      (Sample.logged_in 1200) in
  outcome = Raise RevokedToken ∧
  repository_users.query_first (JStr "a@x.com") (db w')
  = Some (User.mk 1 "alice" "a@x.com" (Passlib.Bcrypt "salt" "secret1")
            None None true) ∧
  (∀ row, row ∈ db w' →
          User.refresh_token row = None ∨ row ∈ db (Sample.logged_in 1200)).
Proof.
  apply (refresh_mismatch_revokes (Sample.logged_in 1200)
           (Sample.session_token "refresh_token" "a@x.com" 900 (Auth.days 7))
           (JStr "a@x.com") Sample.alice_logged_in).
  - vm_compute; reflexivity.
  - vm_compute; reflexivity.
  - refine (bool_decide_eq_false_1 _ _). vm_compute; reflexivity.
Defined.

(** Bob, unconfirmed, logs in with his correct password. *)
Lemma login_unconfirmed_witness :
  routes_auth.login "b@x.com" "hunter2" (Sample.world 1000)
  = (Raise EmailNotConfirmed,
     emit (DbQuery (JStr "b@x.com")) (Sample.world 1000))
  ∧ count is_verify
      (trace (routes_auth.login "b@x.com" "hunter2" (Sample.world 1000)).2)
    = count is_verify (trace (Sample.world 1000)).
Proof.
  apply (login_unconfirmed (Sample.world 1000) "b@x.com" "hunter2"
           Sample.bob); vm_compute; reflexivity.
Defined.

Lemma request_email_unknown_dereferences_none_witness :
  routes_auth.request_email "ghost@x.com" (Sample.world 1000)
  = (Raise (AttributeError "'NoneType' object has no attribute 'confirmed'"),
     emit (DbQuery (JStr "ghost@x.com")) (Sample.world 1000)).
Proof.
  apply request_email_unknown_dereferences_none. vm_compute; reflexivity.
Defined.

(** A refresh token with a lifetime of 60.5 seconds, issued a quarter
    past the second 1000 and decoded at 1030: it expires in the second
    1060. *)
Lemma decode_issue_roundtrip_witness :
  ∃ token claims,
    issue Refresh "a@x.com" (Pyfloat.Finite (121 # 2)) (Sample.world 1000)
    = (Return token, Sample.world 1000) ∧
    Jose.decode token "secret" ["HS256"] 1030 = inr claims ∧
    claims !! "sub" = Some (JStr "a@x.com") ∧
    claims !! "scope" = Some (JStr "refresh_token") ∧
    decode Refresh token (at_time 1030 (Sample.world 1000))
    = (Return (JStr "a@x.com"), at_time 1030 (Sample.world 1000)).
Proof.
  apply (decode_issue_roundtrip (Sample.world 1000) Refresh "a@x.com"
           (121 # 2) 1030).
  - vm_compute; reflexivity.
  - vm_compute; reflexivity.
  - vm_compute; reflexivity.
  - refine (proj1 (Z.leb_le _ _) _). vm_compute; reflexivity.
Defined.

(** C4, counterexample. A lifetime of 10^12 seconds is positive, and the
    moment it ends lies beyond the year 9999: adding it to the clock
    raises [OverflowError], so no token is issued for either scope. *)
Lemma issue_overflows_for_large_lifetime :
  (0 < 1000000000000 # 1)%Q ∧
  (issue Access "a@x.com" (Pyfloat.Finite (1000000000000 # 1))
     (Sample.world 1000)).1 = Raise OverflowError ∧
  (issue Refresh "a@x.com" (Pyfloat.Finite (1000000000000 # 1))
     (Sample.world 1000)).1 = Raise OverflowError.
Proof. vm_compute. repeat split; reflexivity. Qed.



(** An access token, live at 1000, given to the confirmation decoder. *)
Lemma get_email_from_token_ignores_scope_witness :
  Auth.get_email_from_token
    (Sample.session_token "access_token" "a@x.com" 1000 (Auth.minutes 15))
    (Sample.world 1000)
  = (Return (JStr "a@x.com"), Sample.world 1000).
Proof.
  apply (get_email_from_token_ignores_scope (Sample.world 1000) _
           (session_claims "access_token" "a@x.com" 1000
              (1000 + Auth.minutes 15)));
    vm_compute; reflexivity.
Defined.

(** C5, counterexample. The access token that [create_access_token]
    issues for Alice at 1000 is validly signed, unexpired and bears the
    scope tag [access_token]; the confirmation decoder accepts it and
    returns its subject. *)
Lemma confirmation_decode_accepts_access_token :
  (Auth.create_access_token {["sub" := JStr "a@x.com"]} None
     (Sample.world 1000)).1
  = Return (Sample.session_token "access_token" "a@x.com" 1000
              (Auth.minutes 15)) ∧
  Jose.decode
    (Sample.session_token "access_token" "a@x.com" 1000 (Auth.minutes 15))
    "secret" ["HS256"] 1000
  = inr (session_claims "access_token" "a@x.com" 1000 1900) ∧
  session_claims "access_token" "a@x.com" 1000 1900 !! "scope"
  = Some (JStr "access_token") ∧
  (Auth.get_email_from_token
     (Sample.session_token "access_token" "a@x.com" 1000 (Auth.minutes 15))
     (Sample.world 1000)).1
  = Return (JStr "a@x.com").
Proof. vm_compute. repeat split; reflexivity. Qed.

(** C7, counterexample. The stored digest is a string that is not the
    output of the hashing scheme: verification raises instead of
    returning false. *)
Lemma verify_password_raises_on_malformed_digest :
  (Auth.verify_password "secret1" (Passlib.Unidentified "secret1")
     (Sample.world 1000)).1
  = Raise UnknownHashError.
Proof. reflexivity. Qed.

(** The plaintext itself stored where the digest should be. *)
Lemma verify_password_outcome_witness :
  Auth.verify_password "secret1" (Passlib.Unidentified "secret1")
    (Sample.world 1000)
  = (Raise UnknownHashError, emit PasswordVerify (Sample.world 1000))
  ∧ ∀ answer : bool,
      (Auth.verify_password "secret1" (Passlib.Unidentified "secret1")
         (Sample.world 1000)).1 ≠ Return answer.
Proof.
  apply (verify_password_outcome (Sample.world 1000) "secret1"
           (Passlib.Unidentified "secret1")).
  reflexivity.
Defined.

(** Alice's access token of 1000 on an empty cache, and again at 1500. *)
Lemma get_current_user_caches_witness :
  let token :=
    Sample.session_token "access_token" "a@x.com" 1000 (Auth.minutes 15) in
  let w1 := (Auth.get_current_user token (Sample.world 1000)).2 in
  let second := Auth.get_current_user token (at_time 1500 w1) in
  count is_lookup (trace w1) = S (count is_lookup (trace (Sample.world 1000)))
  ∧ count is_cache_write (trace w1)
    = S (count is_cache_write (trace (Sample.world 1000)))
  ∧ second.1 = Return Sample.alice
  ∧ count is_lookup (trace second.2) = count is_lookup (trace w1).
Proof.
  apply (get_current_user_caches (Sample.world 1000)
           (Sample.session_token "access_token" "a@x.com" 1000
              (Auth.minutes 15))
           (Sample.session_token "access_token" "a@x.com" 1000
              (Auth.minutes 15))
           (JStr "a@x.com") Sample.alice 1500).
  - vm_compute; reflexivity.
  - intros op. reflexivity.
  - vm_compute; reflexivity.
  - vm_compute; reflexivity.
  - simpl; lia.
  - vm_compute; reflexivity.
Defined.

(** C8, counterexample. A valid, unexpired access token whose subject is
    in neither the cache nor the directory: the call makes its one
    directory query, raises the credentials failure and writes nothing to
    the cache. And Alice's token against a client whose [SET] fails: the
    write of the first call is lost, and a second call 500 seconds later
    queries the directory again. *)
Lemma get_current_user_without_row_writes_nothing :
  let ghost :=
    Sample.session_token "access_token" "ghost@x.com" 1000
      (Auth.minutes 15) in
  let token :=
    Sample.session_token "access_token" "a@x.com" 1000 (Auth.minutes 15) in
  let w1 := (Auth.get_current_user token (Sample.cache_down 1000)).2 in
  (Auth.get_current_user_email ghost (Sample.world 1000)).1
  = Return (JStr "ghost@x.com") ∧
  Redis.get (r (Sample.world 1000)) 1000 (cache_key (JStr "ghost@x.com"))
  = None ∧
  (Auth.get_current_user ghost (Sample.world 1000)).1
  = Raise Auth.credentials_exception ∧
  count is_lookup (trace (Auth.get_current_user ghost (Sample.world 1000)).2)
  = 1%nat ∧
  count is_cache_write
    (trace (Auth.get_current_user ghost (Sample.world 1000)).2) = 0%nat ∧
  count is_lookup (trace w1) = 1%nat ∧
  count is_lookup (trace (Auth.get_current_user token (at_time 1500 w1)).2)
  = 2%nat.
Proof. vm_compute. repeat split; reflexivity. Qed.

(** Alice's access token of 1000 against a client whose [SET] fails. *)
Lemma cache_write_failure_propagates_witness :
  (Auth.get_current_user
     (Sample.session_token "access_token" "a@x.com" 1000 (Auth.minutes 15))
     (Sample.cache_down 1000)).1
  = Raise ConnectionError.
Proof.
  apply (cache_write_failure_propagates (Sample.cache_down 1000) _
           (JStr "a@x.com") Sample.alice); vm_compute; reflexivity.
Defined.

(** C6, counterexample. Alice's access token decodes, the cache answers
    with a miss, the directory has her row, and the write to the cache
    fails: the call ends in the client's error and returns no identity. *)
Lemma cache_write_failure_fails_the_call :
  let token :=
    Sample.session_token "access_token" "a@x.com" 1000 (Auth.minutes 15) in
  (Auth.get_current_user_email token (Sample.cache_down 1000)).1
  = Return (JStr "a@x.com") ∧
  (r_get (cache_key (JStr "a@x.com")) (Sample.cache_down 1000)).1
  = Return None ∧
  (repository_users.get_user_by_email (JStr "a@x.com")
     (Sample.cache_down 1000)).1 = Return (Some Sample.alice) ∧
  (r_set (cache_key (JStr "a@x.com")) (Redis.pickle_dumps Sample.alice)
     (Sample.cache_down 1000)).1 = Raise ConnectionError ∧
  (Auth.get_current_user token (Sample.cache_down 1000)).1
  = Raise ConnectionError.
Proof. vm_compute. repeat split; reflexivity. Qed.


(** * Further properties of the code *)

(** ** Tokens: lifetimes and scopes *)

Lemma decode_signed_at w tag subject now expire later :
  Jose.decode (signed w (session_claims tag subject now expire))
    (secret_key (settings w)) [algorithm (settings w)] later
  = if bool_decide (later ≤ expire)
    then inr (session_claims tag subject now expire)
    else inl Jose.ExpiredSignatureError.
Proof.
  case_bool_decide as Hle.
  - by apply decode_signed.
  - destruct (session_claims_lookup tag subject now expire)
      as (_ & Hexp & Hiat & _).
    unfold signed, Jose.decode.
    rewrite bool_decide_eq_true_2 by set_solver.
    rewrite bool_decide_eq_true_2 by done.
    rewrite Hiat, Hexp. simpl.
    destruct (Z.ltb_spec expire later); [done|lia].
Qed.

Lemma decode_session_token sc w subject now expire later :
  decode sc (signed w (session_claims (scope_tag sc) subject now expire))
    (at_time later w)
  = (if bool_decide (later ≤ expire) then Return (JStr subject)
     else Raise (rejected_failure sc), at_time later w).
Proof.
  pose proof (decode_signed_at w (scope_tag sc) subject now expire later)
    as Hdec.
  destruct (session_claims_lookup (scope_tag sc) subject now expire)
    as (Hscope & _ & _ & Hsub).
  destruct sc; simpl in Hdec, Hscope, Hsub;
    unfold decode, Auth.get_current_user_email,
    Auth.decode_refresh_token, Auth.SECRET_KEY, Auth.ALGORITHM;
    run; rewrite Hdec; case_bool_decide; simpl; try reflexivity;
    rewrite Hscope; simpl; rewrite Hsub; reflexivity.
Qed.

Lemma create_access_token_default w subject delta :
  Jose.supported (algorithm (settings w)) = true →
  Auth.truthy delta = false →
  Auth.create_access_token {["sub" := JStr subject]} delta w
  = (Return (access_token_at w subject), w).
Proof.
  intros Halg Hd.
  unfold Auth.create_access_token, Auth.SECRET_KEY, Auth.ALGORITHM.
  run. rewrite Hd. unfold Jose.encode. rewrite Halg. reflexivity.
Qed.

Lemma create_refresh_token_default w subject delta :
  Jose.supported (algorithm (settings w)) = true →
  Auth.truthy delta = false →
  Auth.create_refresh_token {["sub" := JStr subject]} delta w
  = (Return (refresh_token_at w subject), w).
Proof.
  intros Halg Hd.
  unfold Auth.create_refresh_token, Auth.SECRET_KEY, Auth.ALGORITHM.
  run. rewrite Hd. unfold Jose.encode. rewrite Halg. reflexivity.
Qed.


(** X2. A lifetime of zero counts as no lifetime given: the access token
    then lives 15 minutes and the refresh token 7 days, like with
    [expires_delta=None], instead of expiring at once. *)
Theorem zero_lifetime_is_default
    (w : World) (subject : string) (later : Z) :
  Jose.supported (algorithm (settings w)) = true →
  Auth.create_access_token {["sub" := JStr subject]}
    (Some (Pyfloat.Finite 0%Q)) w
  = Auth.create_access_token {["sub" := JStr subject]} None w ∧
  Auth.create_refresh_token {["sub" := JStr subject]}
    (Some (Pyfloat.Finite 0%Q)) w
  = Auth.create_refresh_token {["sub" := JStr subject]} None w ∧
  ∃ access refresh,
    Auth.create_access_token {["sub" := JStr subject]}
      (Some (Pyfloat.Finite 0%Q)) w
    = (Return access, w) ∧
    Auth.create_refresh_token {["sub" := JStr subject]}
      (Some (Pyfloat.Finite 0%Q)) w
    = (Return refresh, w) ∧
    (decode Access access (at_time later w)).1
    = (if bool_decide (later ≤ utcnow w + 900) then Return (JStr subject)
       else Raise (rejected_failure Access)) ∧
    (decode Refresh refresh (at_time later w)).1
    = (if bool_decide (later ≤ utcnow w + 604800) then Return (JStr subject)
       else Raise (rejected_failure Refresh)).
Proof.
  intros Halg.
  rewrite !create_access_token_default, !create_refresh_token_default
    by done.
  do 2 (split; [reflexivity|]).
  eexists _, _. do 2 (split; [reflexivity|]).
  unfold access_token_at, refresh_token_at.
  rewrite (decode_session_token Access), (decode_session_token Refresh).
  split; reflexivity.
Qed.

Lemma email_claims_lookup subject now :
  email_claims subject now !! "scope" = None ∧
  email_claims subject now !! "exp" = Some (JInt (now + Auth.days 7)) ∧
  email_claims subject now !! "iat" = Some (JInt now) ∧
  email_claims subject now !! "sub" = Some (JStr subject).
Proof. unfold email_claims. by simplify_map_eq. Qed.

Lemma create_email_token_run w subject :
  Jose.supported (algorithm (settings w)) = true →
  Auth.create_email_token {["sub" := JStr subject]} w
  = (Return (signed w (email_claims subject (utcnow w))), w).
Proof.
  intros Halg.
  unfold Auth.create_email_token, Auth.SECRET_KEY, Auth.ALGORITHM.
  run. unfold Jose.encode. rewrite Halg. reflexivity.
Qed.

Lemma decode_email_token w subject now later :
  Jose.decode (signed w (email_claims subject now))
    (secret_key (settings w)) [algorithm (settings w)] later
  = if bool_decide (later ≤ now + Auth.days 7)
    then inr (email_claims subject now)
    else inl Jose.ExpiredSignatureError.
Proof.
  destruct (email_claims_lookup subject now) as (_ & Hexp & Hiat & Hsub).
  unfold signed, Jose.decode.
  rewrite bool_decide_eq_true_2 by set_solver.
  rewrite bool_decide_eq_true_2 by done.
  rewrite Hiat, Hexp, Hsub. simpl.
  case_bool_decide; destruct (Z.ltb_spec (now + Auth.days 7) later);
    done || lia.
Qed.

(** X3. The token made for a confirmation mail gives its subject back to
    [get_email_from_token] for seven days, the last second included, and
    is refused with 422 "Invalid token for email verification" from then
    on. *)
Theorem email_token_roundtrip (w : World) (subject : string) (later : Z) :
  Jose.supported (algorithm (settings w)) = true →
  ∃ token,
    Auth.create_email_token {["sub" := JStr subject]} w = (Return token, w) ∧
    Auth.get_email_from_token token (at_time later w)
    = (if bool_decide (later ≤ utcnow w + 604800) then Return (JStr subject)
       else Raise (HTTPException 422
                     "Invalid token for email verification" []),
       at_time later w).
Proof.
  intros Halg. eexists. split; [by apply create_email_token_run|].
  pose proof (decode_email_token w subject (utcnow w) later) as Hdec.
  destruct (email_claims_lookup subject (utcnow w)) as (_ & _ & _ & Hsub).
  unfold Auth.get_email_from_token, Auth.SECRET_KEY, Auth.ALGORITHM.
  run. rewrite Hdec. clear Hdec.
  change (utcnow w + Auth.days 7) with (utcnow w + 604800).
  destruct (bool_decide (later ≤ utcnow w + 604800)); simpl; [|reflexivity].
  by rewrite Hsub.
Qed.

(** X4. A confirmation token carries no scope. Presented while it is live
    as a refresh token or as a bearer access token it passes [jwt.decode],
    and the lookup of ["scope"] in its payload raises [KeyError], which
    neither decoder catches: the caller gets no HTTP failure. *)
Theorem email_token_as_session_token
    (w : World) (sc : Scope) (subject : string) (later : Z) :
  Jose.supported (algorithm (settings w)) = true →
  later ≤ utcnow w + 604800 →
  ∃ token,
    Auth.create_email_token {["sub" := JStr subject]} w = (Return token, w) ∧
    decode sc token (at_time later w)
    = (Raise (KeyError "scope"), at_time later w).
Proof.
  intros Halg Hlater. eexists. split; [by apply create_email_token_run|].
  pose proof (decode_email_token w subject (utcnow w) later) as Hdec.
  rewrite bool_decide_eq_true_2 in Hdec by exact Hlater.
  destruct (email_claims_lookup subject (utcnow w)) as (Hscope & _).
  destruct sc; unfold decode, Auth.get_current_user_email,
    Auth.decode_refresh_token, Auth.SECRET_KEY, Auth.ALGORITHM;
    run; rewrite Hdec; simpl; rewrite Hscope; reflexivity.
Qed.

(** ** Login and refresh *)

Lemma query_first_email (s : string) rows user :
  repository_users.query_first (JStr s) rows = Some user →
  User.email user = s.
Proof.
  unfold repository_users.query_first. intros Hhead.
  apply head_Some_elem_of, list_elem_of_filter in Hhead as [Heq _].
  congruence.
Qed.

Lemma decode_session_in sc w w' subject now expire :
  settings w' = settings w →
  decode sc (signed w (session_claims (scope_tag sc) subject now expire)) w'
  = (if bool_decide (utcnow w' ≤ expire) then Return (JStr subject)
     else Raise (rejected_failure sc), w').
Proof.
  intros Hs.
  assert (signed w = signed w') as -> by (unfold signed; by rewrite Hs).
  pose proof (decode_session_token sc w' subject now expire (utcnow w'))
    as Hrun.
  by destruct w'.
Qed.

(** The world after a login or refresh that stored [token] for [user]. *)
Lemma login_success_run w username password user :
  repository_users.query_first (JStr username) (db w) = Some user →
  User.confirmed user = true →
  Passlib.verify password (User.password user) = Some true →
  Jose.supported (algorithm (settings w)) = true →
  routes_auth.login username password w
  = (Return {| schemas.access_token := access_token_at w username;
               schemas.refresh_token := refresh_token_at w username;
               schemas.token_type := "bearer" |},
     emit DbCommit
       (with_db (repository_users.store_token user
                   (Some (refresh_token_at w username)) (db w))
          (emit PasswordVerify (emit (DbQuery (JStr username)) w)))).
Proof.
  intros Hfound Hconf Hpw Halg.
  pose proof (query_first_email _ _ _ Hfound) as Hmail.
  unfold routes_auth.login, repository_users.get_user_by_email,
    Auth.verify_password, repository_users.update_token.
  run. rewrite Hfound. simpl. rewrite Hconf, Hpw. simpl.
  rewrite Hmail.
  rewrite create_access_token_default by done.
  rewrite create_refresh_token_default by done.
  reflexivity.
Qed.

Lemma refresh_match_run w token subject user :
  (Auth.decode_refresh_token token w).1 = Return (JStr subject) →
  repository_users.query_first (JStr subject) (db w) = Some user →
  User.refresh_token user = Some token →
  Jose.supported (algorithm (settings w)) = true →
  routes_auth.refresh_token token w
  = (Return {| schemas.access_token := access_token_at w subject;
               schemas.refresh_token := refresh_token_at w subject;
               schemas.token_type := "bearer" |},
     emit DbCommit
       (with_db (repository_users.store_token user
                   (Some (refresh_token_at w subject)) (db w))
          (emit (DbQuery (JStr subject)) w))).
Proof.
  intros Hdec Hfound Hstored Halg.
  apply run_fst_snd in Hdec; [|apply decode_refresh_token_world].
  unfold routes_auth.refresh_token, bind at 1. rewrite Hdec.
  unfold repository_users.get_user_by_email, repository_users.update_token.
  run. rewrite Hfound. simpl.
  rewrite bool_decide_eq_true_2 by done. simpl.
  rewrite create_access_token_default by done.
  rewrite create_refresh_token_default by done.
  reflexivity.
Qed.

Lemma refresh_mismatch_run w token email user :
  (Auth.decode_refresh_token token w).1 = Return email →
  repository_users.query_first email (db w) = Some user →
  User.refresh_token user ≠ Some token →
  routes_auth.refresh_token token w
  = (Raise RevokedToken,
     emit DbCommit
       (with_db (repository_users.store_token user None (db w))
          (emit (DbQuery email) w))).
Proof.
  intros Hdec Hfound Hdiff.
  apply run_fst_snd in Hdec; [|apply decode_refresh_token_world].
  unfold routes_auth.refresh_token, bind at 1. rewrite Hdec.
  unfold repository_users.get_user_by_email, repository_users.update_token.
  run. rewrite Hfound. simpl.
  by rewrite bool_decide_eq_false_2.
Qed.

(** X5. Login with the right password on a confirmed account answers with
    a bearer pair; the row then found for the account has the refresh
    token of the answer as its stored value and its other columns as
    before, the access token resolves to the account's email and the
    refresh token decodes to it. *)
Theorem login_issues_session
    (w : World) (username password : string) (user : User.t) :
  repository_users.query_first (JStr username) (db w) = Some user →
  User.confirmed user = true →
  Passlib.verify password (User.password user) = Some true →
  Jose.supported (algorithm (settings w)) = true →
  ∃ tokens w',
    routes_auth.login username password w = (Return tokens, w') ∧
    schemas.token_type tokens = "bearer" ∧
    repository_users.query_first (JStr username) (db w')
    = Some (User.mk (User.id user) (User.username user) (User.email user)
              (User.password user) (User.avatar user)
              (Some (schemas.refresh_token tokens)) (User.confirmed user))
    ∧ (Auth.get_current_user_email (schemas.access_token tokens) w').1
      = Return (JStr username)
    ∧ (Auth.decode_refresh_token (schemas.refresh_token tokens) w').1
      = Return (JStr username).
Proof.
  intros Hfound Hconf Hpw Halg.
  eexists _, _. split; [by apply login_success_run|].
  cbn [schemas.token_type schemas.access_token schemas.refresh_token].
  split; [reflexivity|]. split.
  { cbn [db emit with_db]. by apply query_first_store_token. }
  unfold access_token_at, refresh_token_at. split.
  - rewrite (decode_session_in Access) by reflexivity.
    cbn [fst utcnow emit with_db]. rewrite bool_decide_eq_true_2; [done|].
    unfold Auth.minutes. lia.
  - rewrite (decode_session_in Refresh) by reflexivity.
    cbn [fst utcnow emit with_db]. rewrite bool_decide_eq_true_2; [done|].
    unfold Auth.days. lia.
Qed.

(** What the two session routes can do to the users table: leave it, or
    store a refresh-token value on the row found for the subject. *)
Lemma login_db_cases w username password :
  db (routes_auth.login username password w).2 = db w ∨
  ∃ user token,
    repository_users.query_first (JStr username) (db w) = Some user ∧
    db (routes_auth.login username password w).2
    = repository_users.store_token user token (db w).
Proof.
  unfold routes_auth.login, repository_users.get_user_by_email,
    Auth.verify_password, repository_users.update_token,
    Auth.create_access_token, Auth.create_refresh_token,
    Auth.SECRET_KEY, Auth.ALGORITHM.
  run.
  destruct (repository_users.query_first (JStr username) (db w))
    as [user|] eqn:Hfound; simpl; [|by left].
  destruct (User.confirmed user); simpl; [|by left].
  destruct (Passlib.verify password (User.password user)) as [[|]|];
    simpl; try by left.
  unfold Jose.encode.
  destruct (Jose.supported (algorithm (settings w))) eqn:Halg; simpl;
    rewrite ?Halg; simpl; [|by left].
  right. by eexists _, _.
Qed.

Lemma refresh_db_cases w token :
  db (routes_auth.refresh_token token w).2 = db w ∨
  ∃ email user stored,
    (Auth.decode_refresh_token token w).1 = Return email ∧
    repository_users.query_first email (db w) = Some user ∧
    db (routes_auth.refresh_token token w).2
    = repository_users.store_token user stored (db w).
Proof.
  remember (routes_auth.refresh_token token w) as res eqn:Hres.
  unfold routes_auth.refresh_token, bind at 1 in Hres.
  pose proof (decode_refresh_token_world token w) as Hworld.
  destruct (Auth.decode_refresh_token token w) as [[email|e] w0];
    simpl in Hworld; subst w0; [|left; by subst res].
  unfold repository_users.get_user_by_email, repository_users.update_token,
    Auth.create_access_token, Auth.create_refresh_token,
    Auth.SECRET_KEY, Auth.ALGORITHM in Hres.
  revert Hres. run.
  destruct (repository_users.query_first email (db w))
    as [user|] eqn:Hfound; simpl; [|intros ->; by left].
  destruct (bool_decide (User.refresh_token user = Some token)); simpl.
  - unfold Jose.encode.
    destruct (Jose.supported (algorithm (settings w))) eqn:Halg; simpl;
      rewrite ?Halg; simpl; intros ->; [|by left].
    right. by eexists _, _, _.
  - intros ->. right. by eexists _, _, _.
Qed.

Lemma store_token_account user token rows :
  without_token <$> repository_users.store_token user token rows
  = without_token <$> rows.
Proof.
  unfold repository_users.store_token.
  rewrite <- list_fmap_compose; apply list_fmap_ext;
    intros i row _; simpl; by case_bool_decide.
Qed.

Lemma store_token_other_rows user token rows (row : User.t) :
  User.id row ≠ User.id user →
  row ∈ repository_users.store_token user token rows ↔ row ∈ rows.
Proof.
  intros Hid. unfold repository_users.store_token.
  rewrite list_elem_of_fmap. split.
  - intros (old & -> & Hold). case_bool_decide as Hsame; [|done].
    by destruct Hid.
  - intros Hin. exists row. by rewrite bool_decide_eq_false_2.
Qed.

(** X6. A login that fails, for whatever reason, leaves the users table
    and the cache as they were: no refresh token is stored or cleared. *)
Theorem failed_login_changes_nothing
    (w w' : World) (username password : string) (e : exn) :
  routes_auth.login username password w = (Raise e, w') →
  db w' = db w ∧ r w' = r w.
Proof.
  unfold routes_auth.login, repository_users.get_user_by_email,
    Auth.verify_password, repository_users.update_token,
    Auth.create_access_token, Auth.create_refresh_token,
    Auth.SECRET_KEY, Auth.ALGORITHM.
  run.
  destruct (repository_users.query_first (JStr username) (db w))
    as [user|]; simpl; [|by intros [= _ <-]].
  destruct (User.confirmed user); simpl; [|by intros [= _ <-]].
  destruct (Passlib.verify password (User.password user)) as [[|]|];
    simpl; try by intros [= _ <-].
  unfold Jose.encode.
  destruct (Jose.supported (algorithm (settings w))) eqn:Halg; simpl;
    rewrite ?Halg; simpl; [discriminate|by intros [= _ <-]].
Qed.

(** X7. Neither login nor refresh, whatever they are given and however
    they end, adds, removes or reorders rows or changes an id, username,
    email, password hash, avatar or confirmed flag: with the
    refresh-token column left out, the users table is the one from
    before. *)
Theorem session_routes_keep_accounts
    (w : World) (username password : string) (token : Jose.token) :
  let after_login := (routes_auth.login username password w).2 in
  let after_refresh := (routes_auth.refresh_token token w).2 in
  without_token <$> db after_login = without_token <$> db w ∧
  without_token <$> db after_refresh = without_token <$> db w.
Proof.
  simpl.
  destruct (login_db_cases w username password)
    as [->|(user & stored & _ & ->)];
  destruct (refresh_db_cases w token)
    as [->|(email & user' & stored' & _ & _ & ->)];
  repeat split; try reflexivity; apply store_token_account.
Qed.

(** X8. A refresh call, matching or not, leaves every row with another
    primary key than the subject's exactly as it was: revoking or rotating
    one account's token never touches the stored token of another. *)
Theorem refresh_leaves_other_accounts
    (w : World) (token : Jose.token) (email : jval) (user row : User.t) :
  (Auth.decode_refresh_token token w).1 = Return email →
  repository_users.query_first email (db w) = Some user →
  User.id row ≠ User.id user →
  row ∈ db (routes_auth.refresh_token token w).2 ↔ row ∈ db w.
Proof.
  intros Hdec Hfound Hid.
  destruct (refresh_db_cases w token)
    as [->|(email' & user' & stored & Hdec' & Hfound' & ->)]; [done|].
  rewrite Hdec in Hdec'. injection Hdec' as <-.
  rewrite Hfound in Hfound'. injection Hfound' as <-.
  by apply store_token_other_rows.
Qed.

Lemma refresh_token_at_inj w w' subject :
  refresh_token_at w subject = refresh_token_at w' subject →
  utcnow w = utcnow w'.
Proof.
  intros Heq.
  apply (f_equal (λ t, match t with
                       | Jose.Compact _ claims _ => claims !! "iat"
                       | Jose.Opaque _ => None
                       end)) in Heq.
  unfold refresh_token_at, signed in Heq.
  destruct (session_claims_lookup "refresh_token" subject (utcnow w)
              (utcnow w + Auth.days 7)) as (_ & _ & Hiat & _).
  destruct (session_claims_lookup "refresh_token" subject (utcnow w')
              (utcnow w' + Auth.days 7)) as (_ & _ & Hiat' & _).
  rewrite Hiat, Hiat' in Heq. congruence.
Qed.

Lemma decode_refresh_token_at w w' subject :
  settings w' = settings w →
  utcnow w' ≤ utcnow w + 604800 →
  (Auth.decode_refresh_token (refresh_token_at w subject) w').1
  = Return (JStr subject).
Proof.
  intros Hs Hle. unfold refresh_token_at.
  pose proof (decode_session_in Refresh w w' subject (utcnow w)
                (utcnow w + Auth.days 7) Hs) as Hrun.
  simpl in Hrun. rewrite Hrun. simpl.
  rewrite bool_decide_eq_true_2; [done|]. unfold Auth.days. lia.
Qed.

(** X9. After a first login, a second login at another clock value
    replaces the stored refresh token, and the refresh token of the first
    login, presented while it is still unexpired, is refused as revoked. *)
Theorem second_login_revokes_first
    (w : World) (username password : string) (user : User.t) (t2 t3 : Z) :
  repository_users.query_first (JStr username) (db w) = Some user →
  User.confirmed user = true →
  Passlib.verify password (User.password user) = Some true →
  Jose.supported (algorithm (settings w)) = true →
  t2 ≠ utcnow w →
  t3 ≤ utcnow w + 604800 →
  let first := routes_auth.login username password w in
  let second := routes_auth.login username password (at_time t2 first.2) in
  ∃ tokens,
    first.1 = Return tokens ∧
    (routes_auth.refresh_token (schemas.refresh_token tokens)
       (at_time t3 second.2)).1 = Raise RevokedToken.
Proof.
  intros Hfound Hconf Hpw Halg Ht2 Ht3 first second. subst first second.
  rewrite (login_success_run w username password user) by done.
  cbn [fst snd]. eexists. split; [reflexivity|].
  cbn [schemas.refresh_token].
  set (w1 := emit DbCommit _).
  set (user1 := User.set_refresh_token
                  (Some (refresh_token_at w username)) user).
  assert (repository_users.query_first (JStr username) (db (at_time t2 w1))
          = Some user1) as Hfound1
    by (by apply query_first_store_token).
  rewrite (login_success_run (at_time t2 w1) username password user1)
    by done.
  cbn [snd].
  set (w2 := emit DbCommit _).
  erewrite (refresh_mismatch_run (at_time t3 w2)); [reflexivity| | |].
  - by apply decode_refresh_token_at.
  - cbn [db at_time emit with_db w2].
    apply query_first_store_token. exact Hfound1.
  - cbn [User.refresh_token User.set_refresh_token]. intros Heq.
    apply (inj Some), refresh_token_at_inj in Heq.
    cbn [utcnow at_time] in Heq. congruence.
Qed.


(** X11. Once a refresh call has ended in revocation, every refresh token
    for that subject is refused as revoked, the one that was stored
    included, for as long as the directory is not written again: only a
    new login restores the session. *)
Theorem revoked_until_next_login
    (w : World) (token other : Jose.token) (email : jval) (user : User.t)
    (later : Z) :
  (Auth.decode_refresh_token token w).1 = Return email →
  repository_users.query_first email (db w) = Some user →
  User.refresh_token user ≠ Some token →
  let w' := (routes_auth.refresh_token token w).2 in
  (Auth.decode_refresh_token other (at_time later w')).1 = Return email →
  (routes_auth.refresh_token other (at_time later w')).1
  = Raise RevokedToken.
Proof.
  intros Hdec Hfound Hdiff w'. subst w'.
  rewrite (refresh_mismatch_run w token email user) by done.
  cbn [snd]. intros Hother.
  erewrite refresh_mismatch_run; [reflexivity|exact Hother| |].
  - cbn [db at_time emit with_db]. by apply query_first_store_token.
  - discriminate.
Qed.

(** X12. A refresh call with the stored token answers with a new bearer
    pair whose refresh token replaces the stored one and whose tokens
    decode to the subject; when the new refresh token differs from the
    presented one, presenting the old one again is refused as revoked. *)
Theorem refresh_rotates
    (w : World) (token : Jose.token) (subject : string) (user : User.t)
    (later : Z) :
  (Auth.decode_refresh_token token w).1 = Return (JStr subject) →
  repository_users.query_first (JStr subject) (db w) = Some user →
  User.refresh_token user = Some token →
  Jose.supported (algorithm (settings w)) = true →
  ∃ tokens w',
    routes_auth.refresh_token token w = (Return tokens, w') ∧
    repository_users.query_first (JStr subject) (db w')
    = Some (User.set_refresh_token (Some (schemas.refresh_token tokens)) user)
    ∧ (Auth.get_current_user_email (schemas.access_token tokens) w').1
      = Return (JStr subject)
    ∧ (Auth.decode_refresh_token (schemas.refresh_token tokens) w').1
      = Return (JStr subject)
    ∧ (schemas.refresh_token tokens ≠ token →
       (Auth.decode_refresh_token token (at_time later w')).1
       = Return (JStr subject) →
       (routes_auth.refresh_token token (at_time later w')).1
       = Raise RevokedToken).
Proof.
  intros Hdec Hfound Hstored Halg.
  eexists _, _. split; [by apply refresh_match_run|].
  cbn [schemas.access_token schemas.refresh_token].
  set (w' := emit DbCommit _).
  assert (repository_users.query_first (JStr subject) (db w')
          = Some (User.set_refresh_token
                    (Some (refresh_token_at w subject)) user)) as Hfound'
    by (by apply query_first_store_token).
  split; [exact Hfound'|]. split; [|split].
  - unfold access_token_at.
    rewrite (decode_session_in Access) by reflexivity.
    cbn [fst utcnow emit with_db w']. rewrite bool_decide_eq_true_2; [done|].
    unfold Auth.minutes. lia.
  - apply decode_refresh_token_at; [reflexivity|]. simpl. lia.
  - intros Hnew Hlive.
    erewrite refresh_mismatch_run; [reflexivity|exact Hlive|exact Hfound'|].
    simpl. congruence.
Qed.

(** ** Identity cache: misses, hits and staleness *)

Lemma query_first_rewrite (f : User.t → User.t) email user rows :
  (∀ row, User.email (f row) = User.email row) →
  repository_users.query_first email rows = Some user →
  repository_users.query_first email
    (map (λ row, if bool_decide (User.id row = User.id user)
                 then f row else row) rows)
  = Some (f user).
Proof.
  intros Hmail. unfold repository_users.query_first.
  induction rows as [|row rows IH]; simpl; [done|].
  rewrite !filter_cons. simpl.
  destruct (decide (JStr (User.email row) = email)) as [Hrow|Hrow].
  - simpl. intros [= ->].
    rewrite bool_decide_eq_true_2 by done.
    rewrite decide_True by (by rewrite Hmail). done.
  - intros Hrest.
    rewrite decide_False; [by apply IH|].
    case_bool_decide; [by rewrite Hmail|done].
Qed.

Lemma get_current_user_email_in token w w' email :
  settings w' = settings w → utcnow w' = utcnow w →
  (Auth.get_current_user_email token w).1 = Return email →
  Auth.get_current_user_email token w' = (Return email, w').
Proof.
  intros Hs Hn Hdec.
  apply run_fst_snd; [|apply get_current_user_email_world].
  rewrite <- Hdec. by apply get_current_user_email_frame.
Qed.

Lemma get_current_user_hit w token email bytes :
  (Auth.get_current_user_email token w).1 = Return email →
  Redis.faulty (r w) Redis.GET = false →
  Redis.get (r w) (utcnow w) (cache_key email) = Some bytes →
  Auth.get_current_user token w
  = (Return (Redis.pickle_loads bytes), emit (CacheGet (cache_key email)) w).
Proof.
  intros Hdec Hget Hhit.
  apply run_fst_snd in Hdec; [|apply get_current_user_email_world].
  unfold Auth.get_current_user, bind at 1. rewrite Hdec.
  unfold r_get. fold (cache_key email). run.
  by rewrite Hget, Hhit.
Qed.

(** X13. When the access token is valid, the cache has no entry and the
    directory has no row for the subject, [get_current_user] raises the
    credentials failure after the one directory query and writes nothing
    to the cache. *)
Theorem get_current_user_unknown_subject
    (w : World) (token : Jose.token) (email : jval) :
  (Auth.get_current_user_email token w).1 = Return email →
  Redis.faulty (r w) Redis.GET = false →
  Redis.get (r w) (utcnow w) (cache_key email) = None →
  repository_users.query_first email (db w) = None →
  Auth.get_current_user token w
  = (Raise Auth.credentials_exception,
     emit (DbQuery email) (emit (CacheGet (cache_key email)) w)).
Proof.
  intros Hdec Hget Hmiss Hnone.
  apply run_fst_snd in Hdec; [|apply get_current_user_email_world].
  unfold Auth.get_current_user, bind at 1. rewrite Hdec.
  unfold r_get, repository_users.get_user_by_email.
  fold (cache_key email). run.
  rewrite Hget, Hmiss. simpl. by rewrite Hnone.
Qed.

(** X14. While the cache holds a live entry for the subject of a valid
    access token, [get_current_user] returns that entry whatever the users
    table contains, without querying it: a row changed or removed since
    the entry was written does not show. *)
Theorem cached_identity_ignores_directory
    (w : World) (token : Jose.token) (email : jval) (bytes : Redis.bytes)
    (rows : list User.t) :
  (Auth.get_current_user_email token w).1 = Return email →
  Redis.faulty (r w) Redis.GET = false →
  Redis.get (r w) (utcnow w) (cache_key email) = Some bytes →
  Auth.get_current_user token (with_db rows w)
  = (Return (Redis.pickle_loads bytes),
     emit (CacheGet (cache_key email)) (with_db rows w)).
Proof.
  intros Hdec Hget Hhit.
  apply get_current_user_hit; [|done..].
  by rewrite (get_current_user_email_in token w (with_db rows w) email).
Qed.

Lemma update_avatar_run w email user url :
  repository_users.query_first email (db w) = Some user →
  repository_users.update_avatar email url w
  = (Return (User.set_avatar (Some url) user),
     emit DbCommit
       (with_db (map (λ row, if bool_decide (User.id row = User.id user)
                             then User.set_avatar (Some url) row
                             else row) (db w))
          (emit (DbQuery email) w))).
Proof.
  intros Hfound.
  unfold repository_users.update_avatar, repository_users.get_user_by_email.
  run. by rewrite Hfound.
Qed.

(** X15. [update_avatar] stores the new address on the user's row, the
    other columns as before, and returns that row, but leaves the cache
    alone: a request authenticated within 900 seconds of the one that
    cached the user still gets the snapshot from before, which is not the
    stored row when the address has changed. *)
Theorem avatar_update_not_seen_through_cache
    (w : World) (token again : Jose.token) (email : jval) (user : User.t)
    (url : string) (later : Z) :
  (Auth.get_current_user_email token w).1 = Return email →
  (∀ op, Redis.faulty (r w) op = false) →
  Redis.get (r w) (utcnow w) (cache_key email) = None →
  repository_users.query_first email (db w) = Some user →
  later < utcnow w + 900 →
  (Auth.get_current_user_email again (at_time later w)).1 = Return email →
  let w1 := (Auth.get_current_user token w).2 in
  let update := repository_users.update_avatar email url w1 in
  let stored :=
    User.mk (User.id user) (User.username user) (User.email user)
      (User.password user) (Some url) (User.refresh_token user)
      (User.confirmed user) in
  update.1 = Return stored ∧
  repository_users.query_first email (db update.2) = Some stored ∧
  (Auth.get_current_user again (at_time later update.2)).1 = Return user ∧
  (User.avatar user ≠ Some url → user ≠ stored).
Proof.
  intros Hdec Hok Hmiss Hfound Hlater Hagain w1 update stored.
  subst update w1.
  rewrite (get_current_user_miss w token email user) by done.
  cbn [snd].
  assert (db (after_miss email user w) = db w) as Hdb
    by (unfold after_miss; by destruct (Redis.awaitable (r w))).
  rewrite (update_avatar_run _ email user url) by (by rewrite Hdb).
  cbn [fst snd]. split; [reflexivity|]. split.
  { cbn [db emit with_db].
    change stored with (User.set_avatar (Some url) user).
    apply (query_first_rewrite _ email user); [done|].
    by rewrite Hdb. }
  split; [|intros Hnew Heq; apply Hnew; exact (f_equal User.avatar Heq)].
  set (w2 := emit DbCommit _).
  rewrite (get_current_user_hit (at_time later w2) again email
             (Redis.pickle_dumps user)); [done| | |].
  - rewrite (get_current_user_email_in again (at_time later w) _ email);
      [done| | |done]; subst w2; unfold after_miss;
      by destruct (Redis.awaitable (r w)).
  - subst w2. unfold after_miss.
    destruct (Redis.awaitable (r w)); simpl; apply Hok.
  - subst w2. unfold after_miss.
    destruct (Redis.awaitable (r w)); simpl.
    + by apply redis_get_set_expire.
    + apply redis_get_set.
Qed.

(** ** Sign-up and confirmation *)


(** The table after [row.confirmed = True] on the row of [user]. *)
Lemma confirmed_email_run w token email user :
  (Auth.get_email_from_token token w).1 = Return email →
  repository_users.query_first email (db w) = Some user →
  routes_auth.confirmed_email token w
  = if User.confirmed user
    then (Return "Your email is already confirmed", emit (DbQuery email) w)
    else (Return "Email confirmed",
          emit DbCommit
            (with_db (map (λ row,
                             if bool_decide (User.id row = User.id user)
                             then User.set_confirmed true row
                             else row) (db w))
               (emit (DbQuery email) (emit (DbQuery email) w)))).
Proof.
  intros Hdec Hfound.
  apply run_fst_snd in Hdec; [|apply get_email_from_token_world].
  unfold routes_auth.confirmed_email, bind at 1. rewrite Hdec.
  unfold repository_users.confirmed_email,
    repository_users.get_user_by_email.
  run. rewrite Hfound. simpl.
  destruct (User.confirmed user); simpl; [reflexivity|].
  by rewrite Hfound.
Qed.


(** X17. A resend request for a registered email adds exactly one mail
    task, addressed to the stored email, when the account is unconfirmed,
    and none when it is confirmed; either way the users table and the
    cache stay as they were. *)
Theorem request_email_known
    (w : World) (email : string) (user : User.t) :
  repository_users.query_first (JStr email) (db w) = Some user →
  routes_auth.request_email email w
  = if User.confirmed user
    then (Return "Your email is already confirmed",
          emit (DbQuery (JStr email)) w)
    else (Return "Check your email for confirmation.",
          emit (MailTask email) (emit (DbQuery (JStr email)) w)).
Proof.
  intros Hfound.
  pose proof (query_first_email _ _ _ Hfound) as Hmail.
  unfold routes_auth.request_email, repository_users.get_user_by_email.
  run. rewrite Hfound. simpl.
  destruct (User.confirmed user); simpl; [reflexivity|].
  by rewrite Hmail.
Qed.

Lemma query_first_app_new (s : string) rows (user : User.t) :
  repository_users.query_first (JStr s) rows = None →
  User.email user = s →
  repository_users.query_first (JStr s) (rows ++ [user]) = Some user.
Proof.
  unfold repository_users.query_first. intros Hnone Hmail.
  rewrite filter_app.
  destruct (filter (λ u, JStr (User.email u) = JStr s) rows) eqn:Hrows;
    [|discriminate].
  simpl. rewrite filter_cons. by rewrite decide_True by congruence.
Qed.

Lemma signup_new_run w salt gravatar new_id body :
  repository_users.query_first (JStr (schemas.email body)) (db w) = None →
  routes_auth.signup salt gravatar new_id body w
  = (Return (signed_up salt gravatar new_id body,
             "User successfully created. Check your email for confirmation."),
     emit (MailTask (schemas.email body))
       (emit DbCommit
          (with_db (db w ++ [signed_up salt gravatar new_id body])
             (emit (DbQuery (JStr (schemas.email body))) w)))).
Proof.
  intros Hnone.
  unfold routes_auth.signup, repository_users.get_user_by_email,
    repository_users.create_user.
  run. by rewrite Hnone.
Qed.

Lemma login_unconfirmed_run w username password user :
  repository_users.query_first (JStr username) (db w) = Some user →
  User.confirmed user = false →
  routes_auth.login username password w
  = (Raise EmailNotConfirmed, emit (DbQuery (JStr username)) w).
Proof.
  intros Hfound Hflag.
  unfold routes_auth.login, repository_users.get_user_by_email. run.
  rewrite Hfound. simpl. by rewrite Hflag.
Qed.

Lemma login_wrong_password_run w username password user :
  repository_users.query_first (JStr username) (db w) = Some user →
  User.confirmed user = true →
  Passlib.verify password (User.password user) = Some false →
  routes_auth.login username password w
  = (Raise (HTTPException 401 "Invalid password" []),
     emit PasswordVerify (emit (DbQuery (JStr username)) w)).
Proof.
  intros Hfound Hflag Hpw.
  unfold routes_auth.login, repository_users.get_user_by_email,
    Auth.verify_password. run.
  rewrite Hfound. simpl. by rewrite Hflag, Hpw.
Qed.

Lemma get_email_from_email_token w w' subject :
  settings w' = settings w →
  utcnow w' ≤ utcnow w + 604800 →
  (Auth.get_email_from_token (signed w (email_claims subject (utcnow w)))
     w').1 = Return (JStr subject).
Proof.
  intros Hs Hle.
  destruct (email_claims_lookup subject (utcnow w)) as (_ & _ & _ & Hsub).
  pose proof (decode_email_token w subject (utcnow w) (utcnow w')) as Hjose.
  rewrite bool_decide_eq_true_2 in Hjose by (unfold Auth.days; lia).
  unfold Auth.get_email_from_token, Auth.SECRET_KEY, Auth.ALGORITHM.
  run. rewrite Hs, Hjose. simpl. by rewrite Hsub.
Qed.

(** X18. Sign-up with an unused email appends one unconfirmed row without
    refresh token, schedules one confirmation mail to that email and
    returns the row; a second sign-up with the same email, whatever its
    other fields, then fails with 409 "Account already exists". *)
Theorem signup_twice
    (w : World) (salt salt' : string) (gravatar gravatar' : option string)
    (new_id new_id' : Z) (body body' : schemas.UserModel) :
  repository_users.query_first (JStr (schemas.email body)) (db w) = None →
  schemas.email body' = schemas.email body →
  let first := routes_auth.signup salt gravatar new_id body w in
  ∃ user,
    first.1 = Return (user,
      "User successfully created. Check your email for confirmation.") ∧
    db first.2 = (db w ++ [user])%list ∧
    User.email user = schemas.email body ∧
    User.confirmed user = false ∧
    User.refresh_token user = None ∧
    trace first.2
    = (trace w ++ [DbQuery (JStr (schemas.email body)); DbCommit;
                   MailTask (schemas.email body)])%list ∧
    (routes_auth.signup salt' gravatar' new_id' body' first.2).1
    = Raise (HTTPException 409 "Account already exists" []).
Proof.
  intros Hnone Hsame first. subst first.
  rewrite (signup_new_run w salt gravatar new_id body Hnone).
  cbn [fst snd]. eexists. split; [reflexivity|].
  cbn [db emit with_db trace]. split; [reflexivity|].
  do 3 (split; [reflexivity|]).
  split; [by rewrite <- !app_assoc|].
  unfold routes_auth.signup, repository_users.get_user_by_email.
  run. rewrite Hsame.
  by rewrite (query_first_app_new _ _ (signed_up salt gravatar new_id body)).
Qed.

(** X19. From sign-up to session: after sign-up with an unused email,
    login with the chosen password is refused with "Email not confirmed";
    once the confirmation route has been given the email token, login with
    that password answers with a token pair and login with any other
    password is refused with "Invalid password". *)
Theorem signup_confirm_login
    (w : World) (salt : string) (gravatar : option string) (new_id : Z)
    (body : schemas.UserModel) (wrong : string) :
  repository_users.query_first (JStr (schemas.email body)) (db w) = None →
  Jose.supported (algorithm (settings w)) = true →
  wrong ≠ schemas.password body →
  let w1 := (routes_auth.signup salt gravatar new_id body w).2 in
  ∃ token,
    (Auth.create_email_token {["sub" := JStr (schemas.email body)]} w1).1
    = Return token ∧
    (routes_auth.login (schemas.email body) (schemas.password body) w1).1
    = Raise EmailNotConfirmed ∧
    (routes_auth.confirmed_email token w1).1 = Return "Email confirmed" ∧
    let w2 := (routes_auth.confirmed_email token w1).2 in
    (∃ tokens,
       (routes_auth.login (schemas.email body) (schemas.password body) w2).1
       = Return tokens) ∧
    (routes_auth.login (schemas.email body) wrong w2).1
    = Raise (HTTPException 401 "Invalid password" []).
Proof.
  intros Hnone Halg Hwrong w1. subst w1.
  rewrite (signup_new_run w salt gravatar new_id body Hnone). cbn [snd].
  set (user := signed_up salt gravatar new_id body).
  set (w1 := emit (MailTask _) _).
  assert (repository_users.query_first (JStr (schemas.email body)) (db w1)
          = Some user) as Hfound
    by (by apply query_first_app_new).
  rewrite (create_email_token_run w1) by done.
  eexists. split; [reflexivity|].
  rewrite (login_unconfirmed_run w1 _ _ user) by done.
  split; [reflexivity|].
  pose proof (get_email_from_email_token w1 w1 (schemas.email body)
                eq_refl ltac:(lia)) as Hdec.
  rewrite (confirmed_email_run w1 _ _ user Hdec Hfound).
  cbn [User.confirmed user signed_up fst snd].
  split; [reflexivity|].
  set (w2 := emit DbCommit _).
  assert (repository_users.query_first (JStr (schemas.email body)) (db w2)
          = Some (User.set_confirmed true user)) as Hfound2
    by (by apply (query_first_rewrite (User.set_confirmed true))).
  split.
  - rewrite (login_success_run w2 _ _ (User.set_confirmed true user));
      [by eexists|done|done| |done].
    simpl. by rewrite bool_decide_eq_true_2.
  - rewrite (login_wrong_password_run w2 _ _ (User.set_confirmed true user));
      [done..|].
    simpl. by rewrite bool_decide_eq_false_2.
Qed.

(** ** Contacts: ownership and paging *)

Section Contacts.
Import repos_contacts.

Lemma get_contact_by_id_Some contact_id rows user contact :
  get_contact_by_id contact_id rows user = Some contact →
  contact ∈ rows ∧ Contact.id contact = contact_id
  ∧ Contact.user_id contact = User.id user.
Proof.
  unfold get_contact_by_id. intros Hhead.
  apply head_Some_elem_of in Hhead.
  by apply list_elem_of_filter in Hhead as [[? ?] ?].
Qed.


Lemma get_contact_by_id_commit_row change contact_id rows user contact :
  (∀ c, Contact.id (change c) = Contact.id c
        ∧ Contact.user_id (change c) = Contact.user_id c) →
  get_contact_by_id contact_id rows user = Some contact →
  get_contact_by_id contact_id (commit_row contact change rows) user
  = Some (change contact).
Proof.
  intros Hkeep. unfold get_contact_by_id, commit_row.
  induction rows as [|row rows IH]; simpl; [done|].
  rewrite !filter_cons. simpl.
  destruct (decide (Contact.id row = contact_id
                    ∧ Contact.user_id row = User.id user)) as [Hrow|Hrow].
  - simpl. intros [= ->].
    rewrite bool_decide_eq_true_2 by done.
    destruct (Hkeep contact) as [-> ->].
    by rewrite decide_True.
  - intros Hrest. rewrite decide_False; [by apply IH|].
    case_bool_decide; [|done].
    by destruct (Hkeep row) as [-> ->].
Qed.

End Contacts.

(** X20. A page of contacts holds only contacts of the requesting user,
    all with the requested favorite flag when one is given, in table
    order, and never more than [limit] of them. *)
Theorem get_contacts_page
    (user : User.t) (rows : list Contact.t) (skip limit : nat)
    (favorite : option bool) :
  let page := routes_contacts.get_contacts skip limit favorite rows user in
  Forall (λ c, Contact.user_id c = User.id user
               ∧ ∀ flag, favorite = Some flag → Contact.favorite c = flag)
    page ∧
  page `sublist_of` rows ∧
  (length page ≤ limit)%nat.
Proof.
  simpl. unfold routes_contacts.get_contacts, repos_contacts.get_contacts.
  split; [|split].
  - apply Forall_forall. intros c Hin.
    apply (sublist_subseteq _ _ (sublist_take _ _)) in Hin.
    apply (sublist_subseteq _ _ (sublist_drop _ _)) in Hin.
    destruct favorite as [flag|].
    + apply list_elem_of_filter in Hin as [Hflag Hin].
      apply list_elem_of_filter in Hin as [Hown _].
      split; [done|]. by intros ? [= <-].
    + apply list_elem_of_filter in Hin as [Hown _]. by split.
  - etrans; [apply sublist_take|]. etrans; [apply sublist_drop|].
    destruct favorite; [etrans; [apply sublist_filter|]|];
      apply sublist_filter.
  - rewrite length_take. lia.
Qed.


(** X23. Whatever the read route returns carries the requested id, is
    owned by the requesting user and is a row of the table. *)
Theorem get_contact_is_owned
    (rows rows' : list Contact.t) (current_user : User.t) (contact_id : Z)
    (contact : Contact.t) :
  routes_contacts.get_contact contact_id rows current_user
  = (Return contact, rows') →
  rows' = rows ∧ contact ∈ rows ∧ Contact.id contact = contact_id
  ∧ Contact.user_id contact = User.id current_user.
Proof.
  unfold routes_contacts.get_contact, routes_contacts.not_found.
  destruct (repos_contacts.get_contact_by_id contact_id rows current_user)
    as [found|] eqn:Hfound; [|discriminate].
  intros [= -> <-]. split; [done|].
  by apply get_contact_by_id_Some in Hfound.
Qed.

Lemma commit_row_other_rows contact change rows (c : Contact.t) :
  (∀ row, Contact.id (change row) = Contact.id row) →
  Contact.id c ≠ Contact.id contact →
  c ∈ repos_contacts.commit_row contact change rows ↔ c ∈ rows.
Proof.
  intros Hkeep Hid. unfold repos_contacts.commit_row.
  rewrite list_elem_of_fmap. split.
  - intros (old & -> & Hold). case_bool_decide as Hsame; [|done].
    destruct Hid. by rewrite Hkeep.
  - intros Hin. exists c. by rewrite bool_decide_eq_false_2.
Qed.


(** X25. Updating a contact the user owns returns the row with the seven
    fields of the body and its id and owner unchanged; the read route then
    returns that very row, the table keeps its length, and rows with
    another id are as before. *)
Theorem update_contact_updates
    (rows : list Contact.t) (current_user : User.t) (contact_id : Z)
    (body : ContactModel.t) (contact : Contact.t) :
  repos_contacts.get_contact_by_id contact_id rows current_user
  = Some contact →
  let (answer, rows') :=
    routes_contacts.update_contact body contact_id rows current_user in
  ∃ updated,
    answer = Return updated ∧
    Contact.id updated = contact_id ∧
    Contact.user_id updated = User.id current_user ∧
    (Contact.first_name updated, Contact.last_name updated,
     Contact.email updated, Contact.phone updated,
     Contact.birthday updated, Contact.comments updated,
     Contact.favorite updated)
    = (ContactModel.first_name body, ContactModel.last_name body,
       ContactModel.email body, ContactModel.phone body,
       ContactModel.birthday body, ContactModel.comments body,
       ContactModel.favorite body) ∧
    routes_contacts.get_contact contact_id rows' current_user
    = (Return updated, rows') ∧
    length rows' = length rows ∧
    ∀ c, Contact.id c ≠ contact_id → c ∈ rows' ↔ c ∈ rows.
Proof.
  intros Hfound.
  destruct (get_contact_by_id_Some _ _ _ _ Hfound) as (_ & Hid & Hown).
  unfold routes_contacts.update_contact, repos_contacts.update.
  rewrite Hfound.
  exists (repos_contacts.assign body contact).
  split; [done|]. do 3 (split; [done|]). split; [|split].
  - unfold routes_contacts.get_contact.
    by rewrite (get_contact_by_id_commit_row (repos_contacts.assign body)
                  contact_id rows current_user contact).
  - unfold repos_contacts.commit_row. apply length_fmap.
  - intros c Hc. apply commit_row_other_rows; [done|congruence].
Qed.

(** X26. Marking a contact the user owns as favorite or not returns that
    row with the requested flag and with its id, owner, names, email,
    phone, birthday and comments as before; the read route then returns
    that very row, and in every row of the table, in the order from
    before, these other columns are unchanged. *)
Theorem favorite_update_only_flag
    (rows : list Contact.t) (current_user : User.t) (contact_id : Z)
    (body : ContactFavoriteModel.t) (contact : Contact.t) :
  repos_contacts.get_contact_by_id contact_id rows current_user
  = Some contact →
  let (answer, rows') :=
    routes_contacts.favorite_update body contact_id rows current_user in
  let updated :=
    Contact.mk (Contact.id contact) (Contact.first_name contact)
      (Contact.last_name contact) (Contact.email contact)
      (Contact.phone contact) (Contact.birthday contact)
      (Contact.comments contact) (ContactFavoriteModel.favorite body)
      (Contact.user_id contact) in
  answer = Return updated ∧
  routes_contacts.get_contact contact_id rows' current_user
  = (Return updated, rows') ∧
  besides_favorite <$> rows' = besides_favorite <$> rows ∧
  ∀ c, Contact.id c ≠ contact_id → c ∈ rows' ↔ c ∈ rows.
Proof.
  intros Hfound.
  destruct (get_contact_by_id_Some _ _ _ _ Hfound) as (_ & Hid & Hown).
  unfold routes_contacts.favorite_update, repos_contacts.favorite_update.
  rewrite Hfound. split; [done|]. split; [|split].
  - unfold routes_contacts.get_contact.
    by rewrite (get_contact_by_id_commit_row
                  (repos_contacts.set_favorite
                     (ContactFavoriteModel.favorite body))
                  contact_id rows current_user contact).
  - unfold repos_contacts.commit_row. rewrite <- list_fmap_compose.
    apply list_fmap_ext. intros i row _. simpl. by case_bool_decide.
  - intros c Hc. apply commit_row_other_rows; [done|congruence].
Qed.

Lemma get_contact_by_email_app email rows user (c : Contact.t) :
  repos_contacts.get_contact_by_email email rows user = None →
  Contact.email c = email → Contact.user_id c = User.id user →
  repos_contacts.get_contact_by_email email (rows ++ [c]) user = Some c.
Proof.
  unfold repos_contacts.get_contact_by_email. intros Hnone Hmail Hown.
  rewrite filter_app.
  destruct (filter _ rows) eqn:Hrows; [|discriminate].
  simpl. rewrite filter_cons. by rewrite decide_True.
Qed.

(** X27. Creating a contact whose email the user has on no contact yet,
    when the database accepts the insert, appends one row with the fields
    of the body, the id the database assigned and that user as owner, and
    returns it; a further creation by the same user with that email is
    then refused with 409 "Email already exists!" and writes nothing.
    When a constraint of the table refuses the insert, the handler of
    [IntegrityError] fails on the unknown name
    [status.HTTP_404_INVALID_REQUEST]: the call ends in an
    [AttributeError], not in an HTTP failure, and no row is written. *)
Theorem create_contact_once_per_email
    (accepts : list Contact.t → Contact.t → bool)
    (rows : list Contact.t) (current_user : User.t) (new_id new_id' : Z)
    (body body' : ContactModel.t) :
  repos_contacts.get_contact_by_email (ContactModel.email body) rows
    current_user = None →
  ContactModel.email body' = ContactModel.email body →
  let contact :=
    Contact.mk new_id (ContactModel.first_name body)
      (ContactModel.last_name body) (ContactModel.email body)
      (ContactModel.phone body) (ContactModel.birthday body)
      (ContactModel.comments body) (ContactModel.favorite body)
      (User.id current_user) in
  if accepts rows contact then
    routes_contacts.create_contact accepts new_id body rows current_user
    = (Return contact, (rows ++ [contact])%list) ∧
    routes_contacts.create_contact accepts new_id' body'
      (rows ++ [contact]) current_user
    = (Raise (HTTPException 409 "Email already exists!" []),
       (rows ++ [contact])%list)
  else
    ∃ message,
      routes_contacts.create_contact accepts new_id body rows current_user
      = (Raise (AttributeError message), rows).
Proof.
  intros Hnone Hsame contact.
  unfold routes_contacts.create_contact at 1, repos_contacts.create.
  rewrite Hnone. fold contact.
  destruct (accepts rows contact) eqn:Haccepts.
  - split; [reflexivity|].
    unfold routes_contacts.create_contact. rewrite Hsame.
    by erewrite get_contact_by_email_app.
  - unfold routes_contacts.create_contact, repos_contacts.create.
    rewrite Hnone. fold contact. rewrite Haccepts. by eexists.
Qed.

(** ** Contacts: birthdays *)

Lemma replace_year_Some birthday y d :
  Contact.replace_year birthday y = Some d →
  d = Contact.mkdate y (Contact.month birthday) (Contact.day birthday)
  ∧ Contact.day birthday ≤ Contact.days_in_month y (Contact.month birthday).
Proof.
  unfold Contact.replace_year.
  destruct (Z.leb_spec (Contact.day birthday)
              (Contact.days_in_month y (Contact.month birthday)));
    [|discriminate].
  by intros [= <-].
Qed.

Lemma in_range_spec n stop :
  repos_contacts.in_range n (S stop) = true ↔ 0 ≤ n ≤ Z.of_nat stop.
Proof.
  unfold repos_contacts.in_range.
  rewrite andb_true_iff, Z.leb_le, Z.ltb_lt. lia.
Qed.

(** What the loop adds to the list built so far. *)
Lemma birthday_loop_Ok days now contacts acc result :
  repos_contacts.birthday_loop (S days) now contacts acc
  = repos_contacts.Ok result →
  ∃ added,
    result = (acc ++ added)%list ∧
    added `sublist_of` contacts ∧
    (∀ c, c ∈ contacts → ¬ unplaceable now c) ∧
    (∀ c, c ∈ added ↔ c ∈ contacts ∧ due days now c).
Proof.
  revert acc. induction contacts as [|c contacts IH]; intros acc; simpl.
  - intros [= <-]. exists []. rewrite app_nil_r.
    split; [done|]. split; [done|]. split; [by intros ? ?%elem_of_nil|].
    intros c. rewrite elem_of_nil. tauto.
  - destruct (Contact.birthday c) as [birthday|] eqn:Hb.
    + destruct (Contact.replace_year birthday (Contact.year now))
        as [d|] eqn:Hrep; [|discriminate].
      destruct (replace_year_Some _ _ _ Hrep) as [-> _].
      fold (anniversary now birthday) in *.
      destruct (repos_contacts.in_range _ (S days)) eqn:Hin; intros Hloop;
        apply IH in Hloop as (added & -> & Hsub & Hplace & Hdue).
      * exists (c :: added). rewrite <- app_assoc. split; [done|].
        split; [by constructor|]. split.
        { intros c' [->|?]%elem_of_cons; [|by apply Hplace].
          intros (b' & Hb' & Hnone). congruence. }
        intros c'. rewrite !elem_of_cons, Hdue. split; [|tauto].
        intros [->|?]; [|tauto]. split; [by left|].
        exists birthday. by apply in_range_spec in Hin.
      * exists added. split; [done|]. split; [by constructor|]. split.
        { intros c' [->|?]%elem_of_cons; [|by apply Hplace].
          intros (b' & Hb' & Hnone). congruence. }
        intros c'. rewrite elem_of_cons, Hdue. split; [tauto|].
        intros [[->|?] Hc]; [|tauto].
        destruct Hc as (b' & Hb' & _ & Hwin).
        assert (b' = birthday) as -> by congruence.
        apply in_range_spec in Hwin. congruence.
    + intros Hloop. apply IH in Hloop as (added & -> & Hsub & Hplace & Hdue).
      exists added. split; [done|]. split; [by constructor|]. split.
      { intros c' [->|?]%elem_of_cons; [|by apply Hplace].
        intros (b' & Hb' & _). congruence. }
      intros c'. rewrite elem_of_cons, Hdue. split; [tauto|].
      intros [[->|?] Hc]; [|tauto].
      destruct Hc as (b' & Hb' & _). congruence.
Qed.

Lemma birthday_loop_unplaceable days now contacts acc c :
  c ∈ contacts → unplaceable now c →
  repos_contacts.birthday_loop days now contacts acc
  = repos_contacts.ValueError "day is out of range for month".
Proof.
  intros Hin Hbad. revert acc.
  induction contacts as [|c' contacts IH]; intros acc;
    [by apply elem_of_nil in Hin|].
  simpl.
  destruct (Contact.birthday c') as [birthday|] eqn:Hb.
  - destruct (Contact.replace_year birthday (Contact.year now)) eqn:Hrep;
      [|done].
    apply elem_of_cons in Hin as [->|Hin].
    { destruct Hbad as (b' & Hb' & Hnone). congruence. }
    destruct (repos_contacts.in_range _ _); by apply IH.
  - apply elem_of_cons in Hin as [->|Hin]; [|by apply IH].
    destruct Hbad as (b' & Hb' & _). congruence.
Qed.

Lemma birthday_loop_ValueError days now contacts acc message :
  repos_contacts.birthday_loop days now contacts acc
  = repos_contacts.ValueError message →
  ∃ c, c ∈ contacts ∧ unplaceable now c.
Proof.
  revert acc. induction contacts as [|c contacts IH]; intros acc; simpl;
    [discriminate|].
  destruct (Contact.birthday c) as [birthday|] eqn:Hb.
  - destruct (Contact.replace_year birthday (Contact.year now)) eqn:Hrep.
    + destruct (repos_contacts.in_range _ _);
        intros (c' & Hin & Hbad)%IH; exists c';
        (split; [by right|done]).
    + intros _. exists c. split; [by left|]. by exists birthday.
  - intros (c' & Hin & Hbad)%IH. exists c'. split; [by right|done].
Qed.

Lemma search_contacts_loop now days skip limit rows user :
  days ≠ 0%nat →
  routes_contacts.search_contacts now days skip limit rows user
  = match repos_contacts.birthday_loop (S days) now
            (birthday_page skip limit rows user) [] with
    | repos_contacts.Ok (contact :: found) =>
        repos_contacts.Ok (Return (contact :: found))
    | repos_contacts.Ok [] =>
        repos_contacts.Ok
          (Raise (HTTPException 404 "No contacts found" []))
    | repos_contacts.ValueError message =>
        repos_contacts.ValueError message
    end.
Proof.
  intros Hdays.
  unfold routes_contacts.search_contacts, repos_contacts.search_birthday.
  rewrite bool_decide_eq_true_2 by done.
  rewrite lookup_insert_ne, lookup_insert_ne, lookup_singleton_eq by done.
  rewrite lookup_insert_eq.
  rewrite lookup_insert_ne, lookup_insert_eq by done.
  simpl. rewrite Nat.add_1_r. fold (birthday_page skip limit rows user).
  by destruct (repos_contacts.birthday_loop _ _ _ _) as [[|? ?]|].
Qed.

(** X28. The birthdays route has three outcomes. When no contact of the
    scanned page has a birthday on a day this year lacks, it answers with
    the contacts of the page whose anniversary this year is today or at
    most [days] days ahead, in table order, if there are any, and with 404
    "No contacts found" if there are none. It ends in the [ValueError] of
    [date.replace] exactly when some contact of the page has a birthday
    on a day this year lacks. *)
Theorem search_contacts_outcomes
    (now : Contact.date) (days skip limit : nat) (rows : list Contact.t)
    (current_user : User.t) :
  days ≠ 0%nat →
  let page := birthday_page skip limit rows current_user in
  match routes_contacts.search_contacts now days skip limit rows
          current_user with
  | repos_contacts.Ok (Return found) =>
      found ≠ [] ∧ found `sublist_of` page ∧
      (∀ c, c ∈ found ↔ c ∈ page ∧ due days now c) ∧
      (∀ c, c ∈ page → ¬ unplaceable now c)
  | repos_contacts.Ok (Raise e) =>
      e = HTTPException 404 "No contacts found" [] ∧
      ∀ c, c ∈ page → ¬ due days now c ∧ ¬ unplaceable now c
  | repos_contacts.ValueError message =>
      ∃ c, c ∈ page ∧ unplaceable now c
  end.
Proof.
  intros Hdays page. rewrite search_contacts_loop by done. fold page.
  destruct (repos_contacts.birthday_loop (S days) now page [])
    as [result|message] eqn:Hloop.
  - apply birthday_loop_Ok in Hloop
      as (added & -> & Hsub & Hplace & Hdue). simpl.
    destruct added as [|c added].
    + split; [done|]. intros c Hin. split; [|by apply Hplace].
      intros Hc. by apply (elem_of_nil c), Hdue.
    + done.
  - by apply birthday_loop_ValueError in Hloop.
Qed.

Ltac month_cases m :=
  let H := fresh "Hmonth" in
  assert (m = 1 ∨ m = 2 ∨ m = 3 ∨ m = 4 ∨ m = 5 ∨ m = 6 ∨ m = 7 ∨ m = 8
          ∨ m = 9 ∨ m = 10 ∨ m = 11 ∨ m = 12) as H by lia;
  repeat (destruct H as [H|H]; [rewrite H in *|]); [..|rewrite H in *].

(** Within one year the day number grows with month and day. *)
Lemma toordinal_earlier y m1 d1 m2 d2 :
  1 ≤ m1 ≤ 12 → 1 ≤ m2 ≤ 12 →
  d1 ≤ Contact.days_in_month y m1 → 1 ≤ d2 →
  m1 < m2 ∨ (m1 = m2 ∧ d1 < d2) →
  Contact.toordinal (Contact.mkdate y m1 d1)
  < Contact.toordinal (Contact.mkdate y m2 d2).
Proof.
  intros Hm1 Hm2 Hd1 Hd2 Hearlier.
  unfold Contact.toordinal. simpl.
  enough (Contact.days_before_month y m1 + d1
          < Contact.days_before_month y m2 + d2) by lia.
  destruct Hearlier as [Hlt|[-> Hlt]]; [|lia].
  revert Hd1. unfold Contact.days_before_month, Contact.days_in_month.
  month_cases m1; month_cases m2; try lia;
    destruct (Contact.is_leap y); simpl; lia.
Qed.

(** X29. A contact born on 29 February breaks the birthdays search of its
    owner in every year that is not a leap year: as soon as its page is
    scanned, [date.replace] raises, the route ends in that [ValueError]
    and no birthday at all is reported. *)
Theorem leap_day_birthday_breaks_search
    (now : Contact.date) (days skip limit : nat) (rows : list Contact.t)
    (current_user : User.t) (c : Contact.t) (birthday : Contact.date) :
  days ≠ 0%nat →
  Contact.is_leap (Contact.year now) = false →
  c ∈ birthday_page skip limit rows current_user →
  Contact.birthday c = Some birthday →
  Contact.month birthday = 2 →
  Contact.day birthday = 29 →
  routes_contacts.search_contacts now days skip limit rows current_user
  = repos_contacts.ValueError "day is out of range for month".
Proof.
  intros Hdays Hleap Hin Hb Hm Hd.
  rewrite search_contacts_loop by done.
  rewrite (birthday_loop_unplaceable _ now _ [] c Hin); [done|].
  exists birthday. split; [done|].
  unfold Contact.replace_year, Contact.days_in_month.
  by rewrite Hm, Hd, Hleap.
Qed.

(** X30. The search looks at this year's anniversary only: a contact
    whose month and day come before today's is never listed, however
    soon its next birthday is. In the last days of December the birthdays
    of early January are therefore missing from the answer. *)
Theorem passed_birthday_not_listed
    (now : Contact.date) (days skip limit : nat) (rows : list Contact.t)
    (current_user : User.t) (found : list Contact.t) (c : Contact.t)
    (birthday : Contact.date) :
  days ≠ 0%nat →
  Contact.valid now →
  routes_contacts.search_contacts now days skip limit rows current_user
  = repos_contacts.Ok (Return found) →
  Contact.birthday c = Some birthday →
  Contact.valid birthday →
  earlier_in_year birthday now →
  c ∉ found.
Proof.
  intros Hdays (_ & Hmn & Hdn) Hrun Hb (_ & Hmb & Hdb) Hearlier Hin.
  rewrite search_contacts_loop in Hrun by done.
  destruct (repos_contacts.birthday_loop _ _ _ _) as [result|] eqn:Hloop;
    [|discriminate].
  apply birthday_loop_Ok in Hloop as (added & -> & _ & _ & Hdue).
  simpl in Hrun. destruct added as [|c0 added]; [discriminate|].
  injection Hrun as <-.
  apply Hdue in Hin as (_ & b' & Hb' & Hrep & Hwin).
  assert (b' = birthday) as -> by congruence.
  apply replace_year_Some in Hrep as [_ Hfits].
  pose proof (toordinal_earlier (Contact.year now)
                (Contact.month birthday) (Contact.day birthday)
                (Contact.month now) (Contact.day now)
                Hmb Hmn Hfits ltac:(lia) Hearlier) as Hlt.
  unfold anniversary in Hwin.
  assert (Contact.mkdate (Contact.year now) (Contact.month now)
            (Contact.day now) = now) as Hnow by (by destruct now).
  rewrite Hnow in Hlt. lia.
Qed.


(** * The further properties at concrete inputs *)


Lemma zero_lifetime_is_default_witness :
  Auth.create_access_token {["sub" := JStr "a@x.com"]}
    (Some (Pyfloat.Finite 0%Q))
    (Sample.world 1000)
  = Auth.create_access_token {["sub" := JStr "a@x.com"]} None
      (Sample.world 1000) ∧
  Auth.create_refresh_token {["sub" := JStr "a@x.com"]}
    (Some (Pyfloat.Finite 0%Q))
    (Sample.world 1000)
  = Auth.create_refresh_token {["sub" := JStr "a@x.com"]} None
      (Sample.world 1000) ∧
  ∃ access refresh,
    Auth.create_access_token {["sub" := JStr "a@x.com"]}
      (Some (Pyfloat.Finite 0%Q))
      (Sample.world 1000)
    = (Return access, Sample.world 1000) ∧
    Auth.create_refresh_token {["sub" := JStr "a@x.com"]}
      (Some (Pyfloat.Finite 0%Q))
      (Sample.world 1000)
    = (Return refresh, Sample.world 1000) ∧
    (decode Access access (at_time 1900 (Sample.world 1000))).1
    = (if bool_decide (1900 ≤ utcnow (Sample.world 1000) + 900)
       then Return (JStr "a@x.com")
       else Raise (rejected_failure Access)) ∧
    (decode Refresh refresh (at_time 1900 (Sample.world 1000))).1
    = (if bool_decide (1900 ≤ utcnow (Sample.world 1000) + 604800)
       then Return (JStr "a@x.com")
       else Raise (rejected_failure Refresh)).
Proof.
  apply (zero_lifetime_is_default (Sample.world 1000) "a@x.com" 1900).
  vm_compute; reflexivity.
Defined.

Lemma email_token_roundtrip_witness :
  ∃ token,
    Auth.create_email_token {["sub" := JStr "b@x.com"]} (Sample.world 1000)
    = (Return token, Sample.world 1000) ∧
    Auth.get_email_from_token token (at_time 605801 (Sample.world 1000))
    = (if bool_decide (605801 ≤ utcnow (Sample.world 1000) + 604800)
       then Return (JStr "b@x.com")
       else Raise (HTTPException 422
                     "Invalid token for email verification" []),
       at_time 605801 (Sample.world 1000)).
Proof.
  apply (email_token_roundtrip (Sample.world 1000) "b@x.com" 605801).
  vm_compute; reflexivity.
Defined.

Lemma email_token_as_session_token_witness :
  ∃ token,
    Auth.create_email_token {["sub" := JStr "b@x.com"]} (Sample.world 1000)
    = (Return token, Sample.world 1000) ∧
    decode Refresh token (at_time 1500 (Sample.world 1000))
    = (Raise (KeyError "scope"), at_time 1500 (Sample.world 1000)).
Proof.
  apply (email_token_as_session_token (Sample.world 1000) Refresh
           "b@x.com" 1500).
  - vm_compute; reflexivity.
  - simpl; lia.
Defined.

Lemma login_issues_session_witness :
  ∃ tokens w',
    routes_auth.login "a@x.com" "secret1" (Sample.world 1000)
    = (Return tokens, w') ∧
    schemas.token_type tokens = "bearer" ∧
    repository_users.query_first (JStr "a@x.com") (db w')
    = Some (User.mk 1 "alice" "a@x.com" (Passlib.Bcrypt "salt" "secret1")
              None (Some (schemas.refresh_token tokens)) true)
    ∧ (Auth.get_current_user_email (schemas.access_token tokens) w').1
      = Return (JStr "a@x.com")
    ∧ (Auth.decode_refresh_token (schemas.refresh_token tokens) w').1
      = Return (JStr "a@x.com").
Proof.
  apply (login_issues_session (Sample.world 1000) "a@x.com" "secret1"
           Sample.alice); vm_compute; reflexivity.
Defined.

(** Alice gives a wrong password. *)
Lemma failed_login_changes_nothing_witness :
  db (emit PasswordVerify
        (emit (DbQuery (JStr "a@x.com")) (Sample.world 1000)))
  = db (Sample.world 1000) ∧
  r (emit PasswordVerify
       (emit (DbQuery (JStr "a@x.com")) (Sample.world 1000)))
  = r (Sample.world 1000).
Proof.
  apply (failed_login_changes_nothing (Sample.world 1000) _
           "a@x.com" "guess" (HTTPException 401 "Invalid password" [])).
  vm_compute; reflexivity.
Defined.

(** Alice presents a rotated-out token; Bob's row is looked at. *)
Lemma refresh_leaves_other_accounts_witness :
  Sample.bob ∈ db (routes_auth.refresh_token Scenario.first_refresh
                     (Sample.logged_in 1200)).2
  ↔ Sample.bob ∈ db (Sample.logged_in 1200).
Proof.
  apply (refresh_leaves_other_accounts (Sample.logged_in 1200)
           Scenario.first_refresh (JStr "a@x.com") Sample.alice_logged_in
           Sample.bob).
  - vm_compute; reflexivity.
  - vm_compute; reflexivity.
  - vm_compute; discriminate.
Defined.

(** Logins at 1000 and 1001; the first refresh token is used at 2000. *)
Lemma second_login_revokes_first_witness :
  let first := routes_auth.login "a@x.com" "secret1" (Sample.world 1000) in
  let second :=
    routes_auth.login "a@x.com" "secret1" (at_time 1001 first.2) in
  ∃ tokens,
    first.1 = Return tokens ∧
    (routes_auth.refresh_token (schemas.refresh_token tokens)
       (at_time 2000 second.2)).1 = Raise RevokedToken.
Proof.
  apply (second_login_revokes_first (Sample.world 1000) "a@x.com" "secret1"
           Sample.alice 1001 2000).
  - vm_compute; reflexivity.
  - reflexivity.
  - vm_compute; reflexivity.
  - vm_compute; reflexivity.
  - simpl; lia.
  - simpl; lia.
Defined.


(** The rotated-out token revokes; then the stored token is tried. *)
Lemma revoked_until_next_login_witness :
  (routes_auth.refresh_token Scenario.stored_refresh
     (at_time 1300
        (routes_auth.refresh_token Scenario.first_refresh
           (Sample.logged_in 1200)).2)).1
  = Raise RevokedToken.
Proof.
  apply (revoked_until_next_login (Sample.logged_in 1200)
           Scenario.first_refresh Scenario.stored_refresh (JStr "a@x.com")
           Sample.alice_logged_in 1300).
  - vm_compute; reflexivity.
  - vm_compute; reflexivity.
  - refine (bool_decide_eq_false_1 _ _). vm_compute; reflexivity.
  - vm_compute; reflexivity.
Defined.

(** Alice refreshes at 1200 with the stored token of 1000. *)
Lemma refresh_rotates_witness :
  ∃ tokens w',
    routes_auth.refresh_token Scenario.stored_refresh (Sample.logged_in 1200)
    = (Return tokens, w') ∧
    repository_users.query_first (JStr "a@x.com") (db w')
    = Some (User.set_refresh_token (Some (schemas.refresh_token tokens))
              Sample.alice_logged_in)
    ∧ (Auth.get_current_user_email (schemas.access_token tokens) w').1
      = Return (JStr "a@x.com")
    ∧ (Auth.decode_refresh_token (schemas.refresh_token tokens) w').1
      = Return (JStr "a@x.com")
    ∧ (schemas.refresh_token tokens ≠ Scenario.stored_refresh →
       (Auth.decode_refresh_token Scenario.stored_refresh
          (at_time 1300 w')).1 = Return (JStr "a@x.com") →
       (routes_auth.refresh_token Scenario.stored_refresh
          (at_time 1300 w')).1 = Raise RevokedToken).
Proof.
  apply (refresh_rotates (Sample.logged_in 1200) Scenario.stored_refresh
           "a@x.com" Sample.alice_logged_in 1300); vm_compute; reflexivity.
Defined.

(** A valid access token for a subject without row. *)
Lemma get_current_user_unknown_subject_witness :
  Auth.get_current_user
    (Sample.session_token "access_token" "ghost@x.com" 1000
       (Auth.minutes 15))
    (Sample.world 1000)
  = (Raise Auth.credentials_exception,
     emit (DbQuery (JStr "ghost@x.com"))
       (emit (CacheGet (cache_key (JStr "ghost@x.com")))
          (Sample.world 1000))).
Proof.
  apply (get_current_user_unknown_subject (Sample.world 1000));
    vm_compute; reflexivity.
Defined.

(** Alice is cached; the users table is empty. *)
Lemma cached_identity_ignores_directory_witness :
  Auth.get_current_user Scenario.alice_access
    (with_db [] Scenario.cached_only)
  = (Return (Redis.pickle_loads (Redis.pickle_dumps Sample.alice)),
     emit (CacheGet (cache_key (JStr "a@x.com")))
       (with_db [] Scenario.cached_only)).
Proof.
  apply (cached_identity_ignores_directory Scenario.cached_only
           Scenario.alice_access (JStr "a@x.com")
           (Redis.pickle_dumps Sample.alice) []);
    vm_compute; reflexivity.
Defined.

Lemma avatar_update_not_seen_through_cache_witness :
  let w1 := (Auth.get_current_user Scenario.alice_access
               (Sample.world 1000)).2 in
  let update :=
    repository_users.update_avatar (JStr "a@x.com") "https://img/a.png" w1 in
  let stored :=
    User.mk 1 "alice" "a@x.com" (Passlib.Bcrypt "salt" "secret1")
      (Some "https://img/a.png") None true in
  update.1 = Return stored
  ∧ repository_users.query_first (JStr "a@x.com") (db update.2) = Some stored
  ∧ (Auth.get_current_user Scenario.alice_access
       (at_time 1500 update.2)).1 = Return Sample.alice
  ∧ (User.avatar Sample.alice ≠ Some "https://img/a.png"
     → Sample.alice ≠ stored).
Proof.
  apply (avatar_update_not_seen_through_cache (Sample.world 1000)
           Scenario.alice_access Scenario.alice_access (JStr "a@x.com")
           Sample.alice "https://img/a.png" 1500).
  - vm_compute; reflexivity.
  - intros op. reflexivity.
  - vm_compute; reflexivity.
  - vm_compute; reflexivity.
  - simpl; lia.
  - vm_compute; reflexivity.
Defined.


Lemma request_email_known_witness :
  routes_auth.request_email "b@x.com" (Sample.world 1000)
  = if User.confirmed Sample.bob
    then (Return "Your email is already confirmed",
          emit (DbQuery (JStr "b@x.com")) (Sample.world 1000))
    else (Return "Check your email for confirmation.",
          emit (MailTask "b@x.com")
            (emit (DbQuery (JStr "b@x.com")) (Sample.world 1000))).
Proof.
  apply (request_email_known (Sample.world 1000) "b@x.com" Sample.bob).
  vm_compute; reflexivity.
Defined.

(** Carol signs up; somebody signs up again with her email. *)
Lemma signup_twice_witness :
  let first :=
    routes_auth.signup "nacl" None 3 Scenario.carol (Sample.world 1000) in
  ∃ user,
    first.1 = Return (user,
      "User successfully created. Check your email for confirmation.") ∧
    db first.2 = (db (Sample.world 1000) ++ [user])%list ∧
    User.email user = schemas.email Scenario.carol ∧
    User.confirmed user = false ∧
    User.refresh_token user = None ∧
    trace first.2
    = (trace (Sample.world 1000)
       ++ [DbQuery (JStr (schemas.email Scenario.carol)); DbCommit;
           MailTask (schemas.email Scenario.carol)])%list ∧
    (routes_auth.signup "kcl" (Some "https://img/c.png") 4
       {| schemas.username := "carla"; schemas.email := "c@x.com";
          schemas.password := "another" |} first.2).1
    = Raise (HTTPException 409 "Account already exists" []).
Proof.
  apply (signup_twice (Sample.world 1000) "nacl" "kcl" None
           (Some "https://img/c.png") 3 4 Scenario.carol
           {| schemas.username := "carla"; schemas.email := "c@x.com";
              schemas.password := "another" |});
    vm_compute; reflexivity.
Defined.

Lemma signup_confirm_login_witness :
  let w1 :=
    (routes_auth.signup "nacl" None 3 Scenario.carol (Sample.world 1000)).2
  in
  ∃ token,
    (Auth.create_email_token
       {["sub" := JStr (schemas.email Scenario.carol)]} w1).1
    = Return token ∧
    (routes_auth.login (schemas.email Scenario.carol)
       (schemas.password Scenario.carol) w1).1 = Raise EmailNotConfirmed ∧
    (routes_auth.confirmed_email token w1).1 = Return "Email confirmed" ∧
    let w2 := (routes_auth.confirmed_email token w1).2 in
    (∃ tokens,
       (routes_auth.login (schemas.email Scenario.carol)
          (schemas.password Scenario.carol) w2).1 = Return tokens) ∧
    (routes_auth.login (schemas.email Scenario.carol) "wrong" w2).1
    = Raise (HTTPException 401 "Invalid password" []).
Proof.
  apply (signup_confirm_login (Sample.world 1000) "nacl" None 3
           Scenario.carol "wrong").
  - vm_compute; reflexivity.
  - vm_compute; reflexivity.
  - refine (bool_decide_eq_false_1 _ _). vm_compute; reflexivity.
Defined.



Lemma get_contact_is_owned_witness :
  Scenario.contacts = Scenario.contacts ∧
  Scenario.emil ∈ Scenario.contacts ∧
  Contact.id Scenario.emil = 2 ∧
  Contact.user_id Scenario.emil = User.id Sample.alice.
Proof.
  apply (get_contact_is_owned Scenario.contacts Scenario.contacts
           Sample.alice 2 Scenario.emil).
  vm_compute; reflexivity.
Defined.


Lemma update_contact_updates_witness :
  let (answer, rows') :=
    routes_contacts.update_contact Scenario.gus 2 Scenario.contacts
      Sample.alice in
  ∃ updated,
    answer = Return updated ∧
    Contact.id updated = 2 ∧
    Contact.user_id updated = User.id Sample.alice ∧
    (Contact.first_name updated, Contact.last_name updated,
     Contact.email updated, Contact.phone updated,
     Contact.birthday updated, Contact.comments updated,
     Contact.favorite updated)
    = (ContactModel.first_name Scenario.gus,
       ContactModel.last_name Scenario.gus,
       ContactModel.email Scenario.gus, ContactModel.phone Scenario.gus,
       ContactModel.birthday Scenario.gus,
       ContactModel.comments Scenario.gus,
       ContactModel.favorite Scenario.gus) ∧
    routes_contacts.get_contact 2 rows' Sample.alice
    = (Return updated, rows') ∧
    length rows' = length Scenario.contacts ∧
    ∀ c, Contact.id c ≠ 2 → c ∈ rows' ↔ c ∈ Scenario.contacts.
Proof.
  apply (update_contact_updates Scenario.contacts Sample.alice 2
           Scenario.gus Scenario.emil).
  vm_compute; reflexivity.
Defined.

Lemma favorite_update_only_flag_witness :
  let (answer, rows') :=
    routes_contacts.favorite_update (ContactFavoriteModel.mk true) 1
      Scenario.contacts Sample.alice in
  let updated :=
    Contact.mk 1 "Dora" "Diaz" "dora@x.com" None
      (Some (Contact.mkdate 1990 1 2)) None true 1 in
  answer = Return updated ∧
  routes_contacts.get_contact 1 rows' Sample.alice
  = (Return updated, rows') ∧
  besides_favorite <$> rows' = besides_favorite <$> Scenario.contacts ∧
  ∀ c, Contact.id c ≠ 1 → c ∈ rows' ↔ c ∈ Scenario.contacts.
Proof.
  apply (favorite_update_only_flag Scenario.contacts Sample.alice 1
           (ContactFavoriteModel.mk true) Scenario.dora).
  vm_compute; reflexivity.
Defined.

(** Bob adds a contact with the email of one of Alice's contacts, then
    tries the same email again: first under a table without constraints,
    then under a table that takes each email once. *)
Lemma create_contact_once_per_email_witness :
  let body :=
    ContactModel.mk "Dora" "Doe" "dora@x.com" None None None false in
  let contact :=
    Contact.mk 4 "Dora" "Doe" "dora@x.com" None None None false 2 in
  let unique_email (rows : list Contact.t) (c : Contact.t) :=
    forallb (λ row, negb (String.eqb (Contact.email row) (Contact.email c)))
      rows in
  (routes_contacts.create_contact (λ _ _, true) 4 body Scenario.contacts
     Sample.bob
   = (Return contact, (Scenario.contacts ++ [contact])%list) ∧
   routes_contacts.create_contact (λ _ _, true) 5 body
     (Scenario.contacts ++ [contact]) Sample.bob
   = (Raise (HTTPException 409 "Email already exists!" []),
      (Scenario.contacts ++ [contact])%list)) ∧
  ∃ message,
    routes_contacts.create_contact unique_email 4 body Scenario.contacts
      Sample.bob
    = (Raise (AttributeError message), Scenario.contacts).
Proof.
  split.
  - apply (create_contact_once_per_email (λ _ _, true) Scenario.contacts
             Sample.bob 4 5
             (ContactModel.mk "Dora" "Doe" "dora@x.com" None None None false)
             (ContactModel.mk "Dora" "Doe" "dora@x.com" None None None
                false));
      vm_compute; reflexivity.
  - apply (create_contact_once_per_email
             (λ rows c,
                forallb (λ row, negb (String.eqb (Contact.email row)
                                        (Contact.email c))) rows)
             Scenario.contacts Sample.bob 4 5
             (ContactModel.mk "Dora" "Doe" "dora@x.com" None None None false)
             (ContactModel.mk "Dora" "Doe" "dora@x.com" None None None
                false));
      vm_compute; reflexivity.
Defined.

(** Alice asks on 30 December 2024 for the birthdays of the next 7 days. *)
Lemma search_contacts_outcomes_witness :
  let now := Contact.mkdate 2024 12 30 in
  let page := birthday_page 0 10 Scenario.contacts Sample.alice in
  match routes_contacts.search_contacts now 7 0 10 Scenario.contacts
          Sample.alice with
  | repos_contacts.Ok (Return found) =>
      found ≠ [] ∧ found `sublist_of` page ∧
      (∀ c, c ∈ found ↔ c ∈ page ∧ due 7 now c) ∧
      (∀ c, c ∈ page → ¬ unplaceable now c)
  | repos_contacts.Ok (Raise e) =>
      e = HTTPException 404 "No contacts found" [] ∧
      ∀ c, c ∈ page → ¬ due 7 now c ∧ ¬ unplaceable now c
  | repos_contacts.ValueError message =>
      ∃ c, c ∈ page ∧ unplaceable now c
  end.
Proof.
  apply (search_contacts_outcomes (Contact.mkdate 2024 12 30) 7 0 10
           Scenario.contacts Sample.alice).
  lia.
Defined.

(** Bob asks on 1 March 2023; his contact Fay was born on 29 February. *)
Lemma leap_day_birthday_breaks_search_witness :
  routes_contacts.search_contacts (Contact.mkdate 2023 3 1) 7 0 10
    Scenario.contacts Sample.bob
  = repos_contacts.ValueError "day is out of range for month".
Proof.
  apply (leap_day_birthday_breaks_search (Contact.mkdate 2023 3 1) 7 0 10
           Scenario.contacts Sample.bob Scenario.fay
           (Contact.mkdate 1992 2 29)).
  - lia.
  - vm_compute; reflexivity.
  - apply list_elem_of_In. vm_compute. by left.
  - reflexivity.
  - reflexivity.
  - reflexivity.
Defined.

(** On 30 December 2024 Dora's birthday, 2 January, is three days off and
    not in the answer. *)
Lemma passed_birthday_not_listed_witness :
  Scenario.dora ∉ [Scenario.emil].
Proof.
  apply (passed_birthday_not_listed (Contact.mkdate 2024 12 30) 7 0 10
           Scenario.contacts Sample.alice [Scenario.emil] Scenario.dora
           (Contact.mkdate 1990 1 2)).
  - lia.
  - vm_compute. repeat split; discriminate.
  - vm_compute; reflexivity.
  - reflexivity.
  - vm_compute. repeat split; discriminate.
  - left. simpl. lia.
Defined.
